(** * temporal-debug-go: the stepping tracer, embedded and verified

    A shallow embedding of the tracer package of cretz/temporal-debug-go:
    configuration validation ([New]), the source locator
    ([addFileLineBreakpoint]), the three observation handlers, the stepping
    loop ([run]) in its two revisions, [Tracer.Trace], and the text
    marshalling of the two enumeration wrappers of result.go.

    Go strings are byte strings: they are modelled by [string].  Go's [int]
    and [int64] are modelled by [Z] with the range checks of strconv written
    out, [int32] conversions by [wrap32].  Go maps are [gmap]s; a lookup of a
    missing key that Go answers with the zero value is written
    [default zero (m !! k)].  The delve debugger is an external collaborator:
    what it answers is data of the model (a scripted sequence of stops), what
    the tracer asks of it is recorded in a log of effects. *)

From Stdlib Require Import ZArith List String Ascii Bool Lia.
From stdpp Require Import base option list gmap strings.

Local Open Scope Z_scope.
Local Open Scope string_scope.

(** ** Errors and the three ways a Go function ends *)

(** A Go [error] is modelled by its message; [fmt.Errorf("ctx: %w", err)]
    is [wrapf "ctx: " err]. *)
Definition error := string.

Definition wrapf (ctx : string) (err : error) : error := ctx ++ err.

(** A call returns normally, returns an error, or panics (a nil pointer
    dereference, an index out of range). *)
Inductive res (A : Type) : Type :=
| Ok (a : A)
| Err (e : error)
| Panic (why : string).
Arguments Ok {A} a.
Arguments Err {A} e.
Arguments Panic {A} why.

Definition bind {A B : Type} (m : res A) (k : A -> res B) : res B :=
  match m with
  | Ok a => k a
  | Err e => Err e
  | Panic w => Panic w
  end.

Notation "'let*' x ':=' m 'in' k" := (bind m (fun x => k))
  (at level 10, x name, m at level 100, k at level 200).

(** ** The strings package, as far as the tracer uses it *)

Module strings.

(** [strings.HasPrefix(s, prefix)] *)
Definition HasPrefix (s pre : string) : bool := String.prefix pre s.

Fixpoint drop (n : nat) (s : string) : string :=
  match n, s with
  | O, _ => s
  | S n', String _ s' => drop n' s'
  | S _, EmptyString => EmptyString
  end.

(** [s[:n]] for [n <= len(s)] *)
Fixpoint take (n : nat) (s : string) : string :=
  match n, s with
  | O, _ => EmptyString
  | S n', String c s' => String c (take n' s')
  | S _, EmptyString => EmptyString
  end.

(** [strings.HasSuffix(s, suffix)] *)
Definition HasSuffix (s suf : string) : bool :=
  (String.length suf <=? String.length s)%nat
  && String.eqb (drop (String.length s - String.length suf) s) suf.

(** First position at which [sub] occurs in [s]. *)
Fixpoint index_nat (s sub : string) : option nat :=
  if String.prefix sub s then Some O
  else match s with
       | EmptyString => None
       | String _ s' => option_map S (index_nat s' sub)
       end.

(** Last position at which [sub] occurs in [s]. *)
Fixpoint lastIndex_nat (s sub : string) : option nat :=
  match s with
  | EmptyString => if String.prefix sub s then Some O else None
  | String _ s' =>
      match lastIndex_nat s' sub with
      | Some i => Some (S i)
      | None => if String.prefix sub s then Some O else None
      end
  end.

Definition to_index (o : option nat) : Z :=
  match o with
  | Some i => Z.of_nat i
  | None => -1
  end.

(** [strings.Index(s, substr)]: -1 when [substr] does not occur. *)
Definition Index (s sub : string) : Z := to_index (index_nat s sub).

(** [strings.LastIndex(s, substr)] *)
Definition LastIndex (s sub : string) : Z := to_index (lastIndex_nat s sub).

(** Non-overlapping instances of a non-empty [sub], left to right;
    [skip] bytes of a match just counted are passed over. *)
Fixpoint count_from (skip : nat) (s sub : string) : nat :=
  match s with
  | EmptyString => O
  | String _ s' =>
      match skip with
      | S k => count_from k s' sub
      | O =>
          if String.prefix sub s
          then S (count_from (String.length sub - 1) s' sub)
          else count_from O s' sub
      end
  end.

(** [strings.Count(s, substr)].  For the empty [substr] Go answers the
    number of runes plus one, which on ASCII text is the number of bytes
    plus one; the tracer only counts ["\n"]. *)
Definition Count (s sub : string) : Z :=
  match sub with
  | EmptyString => Z.of_nat (String.length s) + 1
  | _ => Z.of_nat (count_from O s sub)
  end.

Fixpoint replace_from (skip : nat) (s old new : string) : string :=
  match s with
  | EmptyString => EmptyString
  | String c s' =>
      match skip with
      | S k => replace_from k s' old new
      | O =>
          if String.prefix old s
          then new ++ replace_from (String.length old - 1) s' old new
          else String c (replace_from O s' old new)
      end
  end.

(** [strings.ReplaceAll(s, old, new)] for a non-empty [old]. *)
Definition ReplaceAll (s old new : string) : string := replace_from O s old new.

End strings.

(** Bytes the sources name by escapes. *)
Definition LF : string := String (ascii_of_nat 10) EmptyString.
Definition CR : string := String (ascii_of_nat 13) EmptyString.
Definition TAB : string := String (ascii_of_nat 9) EmptyString.
Definition CRLF : string := CR ++ LF.
Definition DQUOTE : string := String (ascii_of_nat 34) EmptyString.

(** ** The strconv package, as far as the tracer uses it *)

Module strconv.

Definition digit_of (c : ascii) : option Z :=
  let n := Z.of_nat (nat_of_ascii c) in
  if ((48 <=? n)%Z && (n <=? 57)%Z)%bool then Some (n - 48) else None.

Fixpoint digits (acc : Z) (s : string) : option Z :=
  match s with
  | EmptyString => Some acc
  | String c s' =>
      match digit_of c with
      | Some d => digits (10 * acc + d) s'
      | None => None
      end
  end.

(** Sign and magnitude of a base-10 literal: an optional [+] or [-], then
    at least one digit and nothing but digits. *)
Definition sign_magnitude (s : string) : option (bool * Z) :=
  match s with
  | EmptyString => None
  | String c rest =>
      let '(neg, ds) :=
        if Ascii.eqb c "+" then (false, rest)
        else if Ascii.eqb c "-" then (true, rest)
        else (false, s) in
      match ds with
      | EmptyString => None
      | _ => option_map (pair neg) (digits 0 ds)
      end
  end.

(** The message of a [*strconv.NumError]; the operand is quoted. *)
Definition numError (fn s why : string) : error :=
  "strconv." ++ fn ++ ": parsing " ++ DQUOTE ++ s ++ DQUOTE ++ ": " ++ why.

Definition parse (fn s : string) : res Z :=
  match sign_magnitude s with
  | None => Err (numError fn s "invalid syntax")
  | Some (true, un) =>
      if (un <=? 2 ^ 63)%Z then Ok (- un)
      else Err (numError fn s "value out of range")
  | Some (false, un) =>
      if (un <? 2 ^ 63)%Z then Ok un
      else Err (numError fn s "value out of range")
  end.

(** [strconv.ParseInt(s, 10, 64)] *)
Definition ParseInt (s : string) : res Z := parse "ParseInt" s.

(** [strconv.Atoi(s)] on a 64-bit platform. *)
Definition Atoi (s : string) : res Z := parse "Atoi" s.

Definition digit_char (d : Z) : ascii := ascii_of_nat (Z.to_nat (48 + d)).

Fixpoint itoa_pos (fuel : nat) (n : Z) (acc : string) : string :=
  match fuel with
  | O => acc
  | S f =>
      let acc' := String (digit_char (n mod 10)) acc in
      if (n <? 10)%Z then acc' else itoa_pos f (n / 10) acc'
  end.

(** [strconv.Itoa(i)] *)
Definition Itoa (i : Z) : string :=
  if (i <? 0)%Z
  then String "-" (itoa_pos (Z.to_nat (Z.log2 (- i)) + 1) (- i) EmptyString)
  else itoa_pos (Z.to_nat (Z.log2 i) + 1) i EmptyString.

End strconv.

(** Conversion of a Go [int] to [int32], as in [EventServerType(i)]. *)
Definition wrap32 (z : Z) : Z := (z + 2 ^ 31) mod 2 ^ 32 - 2 ^ 31.

(** ** result.go: the Result model *)

(** The generated tables of an enumeration of go.temporal.io/api/enums/v1
    ([EventType_name] and [EventType_value], [CommandType_name] and
    [CommandType_value]).  The package is not part of this repository: its
    tables are taken as a parameter. *)
Module enums.

Record Tables : Type := {
  name_of : gmap Z string;
  value_of : gmap string Z
}.

(** What the protobuf generator guarantees of a pair of tables: every
    named constant is found again under its name. *)
Definition generated (T : Tables) : Prop :=
  map_Forall (fun (v : Z) (s : string) => value_of T !! s = Some v) (name_of T).

(** [proto.EnumName(m, v)], the body of the generated [String] method. *)
Definition EnumName (m : gmap Z string) (v : Z) : string :=
  default (strconv.Itoa v) (m !! v).

End enums.

Module EventServerType.

(** [func (e EventServerType) String() string] *)
Definition String (T : enums.Tables) (e : Z) : string :=
  enums.EnumName (enums.name_of T) e.

(** [func (e EventServerType) MarshalText() ([]byte, error)] *)
Definition MarshalText (T : enums.Tables) (e : Z) : string * option error :=
  (String T e, None).

(** [func (e EventServerType) UnmarshalText(text []byte) error], on a pointer receiver: the
    value stored through the receiver, and the error. *)
Definition UnmarshalText (T : enums.Tables) (text : string) : Z * option error :=
  (default 0 (enums.value_of T !! text), None).

End EventServerType.

Module EventClientCommandType.

(** [func (e EventClientCommandType) String() string] *)
Definition String (T : enums.Tables) (e : Z) : string :=
  enums.EnumName (enums.name_of T) e.

(** [func (e EventClientCommandType) MarshalText() ([]byte, error)] *)
Definition MarshalText (T : enums.Tables) (e : Z) : string * option error :=
  (String T e, None).

(** [func (e EventClientCommandType) UnmarshalText(text []byte) error], on a pointer receiver *)
Definition UnmarshalText (T : enums.Tables) (text : string) : Z * option error :=
  (default 0 (enums.value_of T !! text), None).

End EventClientCommandType.

(** [type EventServer struct]: [Type] is an [EventServerType], an int32. *)
Record EventServer : Type := {
  ID : Z;
  Type_ : Z
}.

(** [type EventClient struct] *)
Record EventClient : Type := {
  Commands : list Z
}.

(** [type EventCode struct] *)
Record EventCode : Type := {
  Package : string;
  File : string;
  Line : Z;
  Coroutine : string
}.

(** [type Event struct]: three pointers, only one of which is present. *)
Record Event : Type := {
  Server : option EventServer;
  Client : option EventClient;
  Code : option EventCode
}.

Definition serverEvent (e : EventServer) : Event :=
  {| Server := Some e; Client := None; Code := None |}.
Definition clientEvent (e : EventClient) : Event :=
  {| Server := None; Client := Some e; Code := None |}.
Definition codeEvent (e : EventCode) : Event :=
  {| Server := None; Client := None; Code := Some e |}.

(** [type Result struct] *)
Record Result : Type := {
  Events : list Event
}.

(** ** tracer.go: Config, Tracer and New *)

(** A compiled regular expression (a pointer to [regexp.Regexp]): its source and what [MatchString] answers.
    The regexp package is an external collaborator. *)
Record Regexp : Type := {
  pattern : string;
  MatchString : string -> bool
}.

(** [workflow.Execution] *)
Record Execution : Type := {
  ExecutionID : string;
  RunID : string
}.

(** The fields of [client.Options] the tracer reads. *)
Record ClientOptions : Type := {
  HostPort : string;
  Namespace : string
}.

(** [type Config struct].  [Log] is nil or a logger; a logger is not
    modelled further. *)
Record Config : Type := {
  ClientOptions_ : ClientOptions;
  Log : bool;
  WorkflowFuncs : list string;
  Execution_ : option Execution;
  HistoryFile : string;
  RootDir : string;
  RetainTempDir : bool;
  ExcludeFuncs : list Regexp;
  ExcludeFiles : list Regexp;
  IncludeTemporalInternal : bool
}.

(** [type Tracer struct] *)
Record Tracer : Type := {
  config : Config;
  fnPkg : string;
  fn : string
}.

(** [p == nil] *)
Definition isNil {A : Type} (p : option A) : bool :=
  match p with
  | None => true
  | Some _ => false
  end.

Definition withLog (c : Config) (l : bool) : Config :=
  {| ClientOptions_ := ClientOptions_ c; Log := l;
     WorkflowFuncs := WorkflowFuncs c; Execution_ := Execution_ c;
     HistoryFile := HistoryFile c; RootDir := RootDir c;
     RetainTempDir := RetainTempDir c; ExcludeFuncs := ExcludeFuncs c;
     ExcludeFiles := ExcludeFiles c;
     IncludeTemporalInternal := IncludeTemporalInternal c |}.

(** [func New(config Config)], returning a [Tracer] or an error.  The function calls nothing
    outside itself but [fmt.Errorf] and [strings.LastIndex]: it has no
    access to the operating system or to a debugger. *)
Definition New (config : Config) : Tracer + error :=
  if isNil (Execution_ config) && String.eqb (HistoryFile config) ""
  then inr "must have existing execution or history file"
  else if negb (isNil (Execution_ config)) && negb (String.eqb (HistoryFile config) "")
  then inr "cannot have both execution and history file"
  else
    let config' := if Log config then config else withLog config true in
    match WorkflowFuncs config with
    | [f] =>
        match strings.lastIndex_nat f "." with
        | None => inr "workflow function missing dot"
        | Some lastDot =>
            inl {| config := config';
                   fnPkg := strings.take lastDot f;
                   fn := strings.drop (lastDot + 1) f |}
        end
    | _ => inr "single workflow function required"
    end.

(** ** The delve debugger, as the tracer sees it *)

Module api.

#[local] Set Warnings "-register-all".

(** [api.Variable] (a reserved word here), as [api.ConvertVars] returns it. *)
Inductive Var : Type :=
| mkVar (name value : string) (children : list Var).

Definition Name (v : Var) : string :=
  match v with mkVar n _ _ => n end.
Definition Value (v : Var) : string :=
  match v with mkVar _ x _ => x end.
Definition Children (v : Var) : list Var :=
  match v with mkVar _ _ c => c end.

(** [api.Thread].  [FunctionName] is what [Function.Name()] answers (the
    method is defined on a nil function too); [BreakpointID] is the ID of
    the breakpoint the thread is stopped at, if it is stopped at one. *)
Record Thread : Type := {
  File : string;
  Line : Z;
  FunctionName : string;
  GoroutineID : Z;
  BreakpointID : option Z
}.

(** [api.DebuggerState] *)
Record DebuggerState : Type := {
  Exited : bool;
  ExitStatus : Z;
  CurrentThread : option Thread;
  NextInProgress : bool
}.

(** [api.Breakpoint]: an ID, and a file and line or a function name. *)
Record Breakpoint : Type := {
  BID : Z;
  BFile : string;
  BLine : Z;
  BFunctionName : string
}.

Inductive CommandName : Type := Continue | Step | StepOut | Halt.

End api.

(** One answer of [debug.Command]: the state the process stopped in,
    together with what the debugger would answer while the process stays
    stopped there: the arguments and the locals of the top frame of the
    current goroutine, the current package, and whether [CancelNext]
    succeeds. *)
Record Stop : Type := {
  state : api.DebuggerState;
  FunctionArguments : list api.Var + error;
  LocalVariables : list api.Var + error;
  CurrentPackage : string;
  CancelNext : option error
}.

(** What [debug.Command] returns: a stop or an error. *)
Definition Response : Type := Stop + error.

(** What the tracer asks of its surroundings that changes them. *)
Inductive Effect : Type :=
| MkdirTemp
| WriteMainGo
| GoBuild
| RemoveAll
| DebuggerNew
| CreateBreakpoint (file : string) (line : Z) (fn : string)
| Command (c : api.CommandName)
| CancelNextCall
| Detach.

(** The surroundings of one call of [Trace]: the platform, the regexp
    package, the file system, the build, and the debugger with the
    [script] of its answers to [Continue], [Step] and [StepOut], in the
    order they are given. *)
Record Env : Type := {
  goRootSrc : string;
  Separator : ascii;
  regexpCompile : string -> Regexp + error;
  mkdirTemp : option error;
  absDir : option error;
  formatSource : option error;
  writeFile : option error;
  goBuild : option error;
  debuggerNew : option error;
  Sources : list string;
  readFile : string -> string + error;
  createBreakpoint : string -> Z -> string -> Z + error;
  script : list Response
}.

Module filepath.

Fixpoint mapSep (sep : ascii) (s : string) : string :=
  match s with
  | EmptyString => EmptyString
  | String c s' => String (if Ascii.eqb c sep then "/"%char else c) (mapSep sep s')
  end.

(** [filepath.ToSlash(path)] *)
Definition ToSlash (sep : ascii) (path : string) : string :=
  if Ascii.eqb sep "/" then path else mapSep sep path.

End filepath.

(** ** trace.go: the session *)

(** What a breakpoint's [handler] closure is bound to. *)
Inductive Handler : Type :=
| OnProcessEvent
| OnReplayCommands
| PopulateCoroutineName.

(** [type trace struct], over the type [B] of its breakpoints (the two
    revisions of trace.go differ in it).  The embedded tracer is read only
    and passed separately; the current [state] is passed along with the
    trace; [effects] is the log of what was asked of the surroundings, most
    recent last. *)
Record trace (B : Type) : Type := {
  result : Result;
  sourceCache : gmap string string;
  packageFiles : gmap string string;
  breakpoints : gmap Z B;
  coroutineNames : gmap Z string;
  effects : list Effect
}.
Arguments result {B} t.
Arguments sourceCache {B} t.
Arguments packageFiles {B} t.
Arguments breakpoints {B} t.
Arguments coroutineNames {B} t.
Arguments effects {B} t.

Section TraceState.
Context {B : Type}.

Definition emptyTrace : trace B :=
  {| result := {| Events := [] |}; sourceCache := ∅; packageFiles := ∅;
     breakpoints := ∅; coroutineNames := ∅; effects := [] |}.

(** [t.result.Events = append(t.result.Events, e)] *)
Definition appendEvent (t : trace B) (e : Event) : trace B :=
  {| result := {| Events := Events (result t) ++ [e] |};
     sourceCache := sourceCache t; packageFiles := packageFiles t;
     breakpoints := breakpoints t; coroutineNames := coroutineNames t;
     effects := effects t |}.

(** [t.coroutineNames[id] = name] *)
Definition setCoroutineName (t : trace B) (id : Z) (name : string) : trace B :=
  {| result := result t; sourceCache := sourceCache t;
     packageFiles := packageFiles t; breakpoints := breakpoints t;
     coroutineNames := <[id := name]> (coroutineNames t);
     effects := effects t |}.

(** [t.sourceCache[file] = source] *)
Definition setSource (t : trace B) (file source : string) : trace B :=
  {| result := result t; sourceCache := <[file := source]> (sourceCache t);
     packageFiles := packageFiles t; breakpoints := breakpoints t;
     coroutineNames := coroutineNames t; effects := effects t |}.

(** [t.breakpoints[id] = bp] *)
Definition setBreakpoint (t : trace B) (id : Z) (bp : B) : trace B :=
  {| result := result t; sourceCache := sourceCache t;
     packageFiles := packageFiles t;
     breakpoints := <[id := bp]> (breakpoints t);
     coroutineNames := coroutineNames t; effects := effects t |}.

Definition logEffect (t : trace B) (e : Effect) : trace B :=
  {| result := result t; sourceCache := sourceCache t;
     packageFiles := packageFiles t; breakpoints := breakpoints t;
     coroutineNames := coroutineNames t; effects := effects t ++ [e] |}.

End TraceState.

(** Monadic left fold: a [for range] loop whose body may return early. *)
Fixpoint foldM {A X : Type} (f : A -> X -> res A) (l : list X) (a : A) : res A :=
  match l with
  | [] => Ok a
  | x :: l' => let* a' := f a x in foldM f l' a'
  end.

(** [s[lo:hi]]; out of range panics. *)
Definition slice (s : string) (lo hi : nat) : res string :=
  if ((lo <=? hi)%nat && (hi <=? String.length s)%nat)%bool
  then Ok (strings.take (hi - lo) (strings.drop lo s))
  else Panic "slice bounds out of range".

(** [func intInTrailingParens(str string) (int, error)] *)
Definition intInTrailingParens (str : string) : res Z :=
  match strings.index_nat str "(" with
  | None => Err "expected int in parens at the end"
  | Some beginParens =>
      if negb (strings.HasSuffix str ")")
      then Err "expected int in parens at the end"
      else
        let* intStr := slice str (beginParens + 1) (String.length str - 1) in
        strconv.Atoi intStr
  end.

(** [arg.Children[0]] *)
Definition firstChild (v : api.Var) : res api.Var :=
  match api.Children v with
  | [] => Panic "index out of range [0] with length 0"
  | c :: _ => Ok c
  end.

Definition onError {A : Type} (m : res A) (f : error -> error) : res A :=
  match m with
  | Err e => Err (f e)
  | _ => m
  end.

(** What debugger calls return: the value or the wrapped error. *)
Definition loadVars (vars : list api.Var + error) : res (list api.Var) :=
  match vars with
  | inl vs => Ok vs
  | inr e => Err (wrapf "failed loading vars: " e)
  end.

(** *** The observation handlers *)

Section Handlers.
Context {B : Type}.

(** The body of the loop over the children of the event in
    [onProcessEvent]. *)
Definition eventChild (event : EventServer) (child : api.Var) : res EventServer :=
  if String.eqb (api.Name child) "EventId" then
    let* id := onError (strconv.ParseInt (api.Value child))
                 (fun e => "invalid event ID " ++ api.Value child ++ ": " ++ e) in
    Ok {| ID := id; Type_ := Type_ event |}
  else if String.eqb (api.Name child) "EventType" then
    let* i := onError (intInTrailingParens (api.Value child))
                (fun e => "invalid event type " ++ DQUOTE ++ api.Value child
                            ++ DQUOTE ++ ": " ++ e) in
    Ok {| ID := ID event; Type_ := wrap32 i |}
  else Ok event.

Definition eventArg (event : EventServer) (arg : api.Var) : res EventServer :=
  if String.eqb (api.Name arg) "event" then
    let* c0 := firstChild arg in
    foldM eventChild (api.Children c0) event
  else Ok event.

(** The event [onProcessEvent] reads off the arguments; it starts from
    the zero value [var event EventServer]. *)
Definition extractEvent (vars : list api.Var) : res EventServer :=
  foldM eventArg vars {| ID := 0; Type_ := 0 |}.

(** [func (t *trace) onProcessEvent() error] *)
Definition onProcessEvent (t : trace B) (st : Stop) : res (trace B) :=
  let* vars := loadVars (FunctionArguments st) in
  let* event := extractEvent vars in
  Ok (appendEvent t (serverEvent event)).

(** [val := command.Children[0].Children[0].Value] and its conversion. *)
Definition commandOf (command : api.Var) : res Z :=
  let* c0 := firstChild command in
  let* c00 := firstChild c0 in
  let val := api.Value c00 in
  let* i := onError (intInTrailingParens val)
              (fun e => "invalid command type " ++ DQUOTE ++ val ++ DQUOTE
                          ++ ": " ++ e) in
  Ok (wrap32 i).

Definition commandsArg (commands : list Z) (arg : api.Var) : res (list Z) :=
  if String.eqb (api.Name arg) "eventCommands" then
    foldM (fun (cs : list Z) command =>
             let* c := commandOf command in Ok (cs ++ [c])%list)
          (api.Children arg) commands
  else Ok commands.

(** The command list [onReplayCommands] reads off the locals. *)
Definition extractCommands (vars : list api.Var) : res (list Z) :=
  foldM commandsArg vars [].

(** [func (t *trace) onReplayCommands() error] *)
Definition onReplayCommands (t : trace B) (st : Stop) : res (trace B) :=
  let* vars := loadVars (LocalVariables st) in
  let* commands := extractCommands vars in
  if (0 <? Z.of_nat (length commands))%Z
  then Ok (appendEvent t (clientEvent {| Commands := commands |}))
  else Ok t.

(** The first child called [name], if there is one. *)
Fixpoint findName (children : list api.Var) : option string :=
  match children with
  | [] => None
  | child :: rest =>
      if String.eqb (api.Name child) "name" then Some (api.Value child)
      else findName rest
  end.

(** The name [populateCoroutineName] returns on: that of the first
    argument called [crt] whose first child has a [name]. *)
Fixpoint crtName (vars : list api.Var) : res (option string) :=
  match vars with
  | [] => Ok None
  | arg :: rest =>
      if String.eqb (api.Name arg) "crt" then
        let* c0 := firstChild arg in
        match findName (api.Children c0) with
        | Some n => Ok (Some n)
        | None => crtName rest
        end
      else crtName rest
  end.

(** [func (t *trace) populateCoroutineName() error] *)
Definition populateCoroutineName (t : trace B) (st : Stop) (th : api.Thread)
  : res (trace B) :=
  let* vars := loadVars (FunctionArguments st) in
  let* found := crtName vars in
  match found with
  | Some n => Ok (setCoroutineName t (api.GoroutineID th) n)
  | None => Ok t
  end.

Definition runHandler (h : Handler) (t : trace B) (st : Stop) (th : api.Thread)
  : res (trace B) :=
  match h with
  | OnProcessEvent => onProcessEvent t st
  | OnReplayCommands => onReplayCommands t st
  | PopulateCoroutineName => populateCoroutineName t st th
  end.

End Handlers.

(** *** The stepping loop *)

(** How a call of [run], or of [Trace], ends: it returns (with an error or
    without), it panics, or it waits for an answer of the debugger that the
    script does not hold. *)
Inductive Status : Type :=
| Returned (err : option error)
| Panicked (why : string)
| Blocked.

(** What one pass through the body of the loop decides: to give the
    debugger a command (its error would be wrapped in [ctx]) and go round
    again, to return an error, or it panics. *)
Inductive Decision : Type :=
| Issue (c : api.CommandName) (ctx : string)
| Abort (e : error)
| Crash (why : string).

(** [type breakpoint struct] of trace.go *)
Record breakpoint : Type := {
  Breakpoint : api.Breakpoint;
  handler : option Handler
}.

(** The condition [goStdOrTemporal] of [run]. *)
Definition goStdOrTemporal (env : Env) (th : api.Thread) : bool :=
  strings.HasPrefix (filepath.ToSlash (Separator env) (api.File th)) (goRootSrc env)
  || strings.HasPrefix (api.FunctionName th) "go.temporal.io/sdk/"
  || strings.HasPrefix (api.FunctionName th) "go.uber.org/atomic."
  || strings.HasPrefix (api.FunctionName th) "runtime."
  || String.eqb (api.FunctionName th) "main.main".

(** Capturing the breakpoint hit and running its handler: the first block
    of the loop body.  A hit breakpoint that is not in the registry is a
    nil [bp], whose [handler] field the code reads. *)
Definition hitBreakpoint (t : trace breakpoint) (st : Stop) (th : api.Thread)
  : res (trace breakpoint) :=
  match api.BreakpointID th with
  | None => Ok t
  | Some id =>
      match breakpoints t !! id with
      | None => Panic "nil pointer dereference"
      | Some bp =>
          match handler bp with
          | None => Ok t
          | Some h => runHandler h t st th
          end
      end
  end.

(** The [EventCode] of the current line. *)
Definition codeStep (t : trace breakpoint) (st : Stop) (th : api.Thread) : Event :=
  codeEvent {| Package := CurrentPackage st;
               File := api.File th;
               Line := api.Line th;
               Coroutine := default "" (coroutineNames t !! api.GoroutineID th) |}.

(** The body of the loop of [run], up to the command it gives. *)
Definition iteration (env : Env) (t : trace breakpoint) (st : Stop) (th : api.Thread)
  : trace breakpoint * Decision :=
  match hitBreakpoint t st th with
  | Err e => (t, Abort e)
  | Panic w => (t, Crash w)
  | Ok t1 =>
      let t2 := if api.NextInProgress (state st) then logEffect t1 CancelNextCall else t1 in
      match (if api.NextInProgress (state st) then CancelNext st else None) with
      | Some e => (t2, Abort (wrapf "failed cancelling next: " e))
      | None =>
          if goStdOrTemporal env th then
            if strings.HasPrefix (api.FunctionName th) "runtime.goexit"
            then (t2, Issue api.Step "failed stepping out: ")
            else (t2, Issue api.StepOut "failed stepping out: ")
          else
            let t3 :=
              if negb (String.eqb (api.File th) "") && negb (goStdOrTemporal env th)
              then appendEvent t2 (codeStep t2 st th)
              else t2 in
            (t3, Issue api.Step "failed stepping: ")
      end
  end.

(** The check after the loop. *)
Definition exitError (s : api.DebuggerState) : option error :=
  if api.Exited s && negb (api.ExitStatus s =? 0)%Z
  then Some ("failed with exit status: " ++ strconv.Itoa (api.ExitStatus s))
  else None.

(** The loop of [run], from the stop [st] on; [rest] holds the answers to
    the commands still to be given. *)
Fixpoint loop (env : Env) (rest : list Response) (t : trace breakpoint) (st : Stop)
  : trace breakpoint * Status :=
  if api.Exited (state st) then (t, Returned (exitError (state st)))
  else
    match api.CurrentThread (state st) with
    | None => (t, Panicked "nil pointer dereference")
    | Some th =>
        match iteration env t st th with
        | (t', Abort e) => (t', Returned (Some e))
        | (t', Crash w) => (t', Panicked w)
        | (t', Issue c ctx) =>
            let t'' := logEffect t' (Command c) in
            match rest with
            | [] => (t'', Blocked)
            | inr e :: _ => (t'', Returned (Some (wrapf ctx e)))
            | inl st' :: rest' => loop env rest' t'' st'
            end
        end
    end.

(** [func (t *trace) run() error] *)
Definition run (env : Env) (t : trace breakpoint) : trace breakpoint * Status :=
  let t' := logEffect t (Command api.Continue) in
  match script env with
  | [] => (t', Blocked)
  | inr e :: _ => (t', Returned (Some (wrapf "failed starting execution: " e)))
  | inl st :: rest => loop env rest t' st
  end.

(** *** Placing the breakpoints *)

(** [t.debug.CreateBreakpoint] followed by the entry in the registry: the
    common end of [addFuncBreakpoint] and [addFileLineBreakpoint]. *)
Definition register (env : Env) (t : trace breakpoint) (file : string) (line : Z)
    (fn : string) (h : option Handler) : trace breakpoint * option error :=
  let t' := logEffect t (CreateBreakpoint file line fn) in
  match createBreakpoint env file line fn with
  | inr e => (t', Some e)
  | inl id =>
      (setBreakpoint t' id
         {| Breakpoint := {| api.BID := id; api.BFile := file; api.BLine := line;
                             api.BFunctionName := fn |};
            handler := h |},
       None)
  end.

(** [func (t *trace) addFuncBreakpoint(fn string, handler func() error) error] *)
Definition addFuncBreakpoint (env : Env) (t : trace breakpoint) (fn : string)
    (h : option Handler) : trace breakpoint * option error :=
  register env t "" 0 fn h.

(** The loop of [addFileLineBreakpoint] over the sources of the binary;
    [file] is the match found so far, the empty string standing for none. *)
Fixpoint findFile (re : Regexp) (fileRegex : string) (sources : list string)
    (file : string) : string + error :=
  match sources with
  | [] => inl file
  | maybeFile :: rest =>
      if MatchString re maybeFile then
        if negb (String.eqb file "")
        then inr ("both " ++ file ++ " and " ++ maybeFile ++ " match " ++ fileRegex)
        else findFile re fileRegex rest maybeFile
      else findFile re fileRegex rest file
  end.

(** The line of the last line of [codeToMatch] in [source], or the error of
    a fragment that is missing or found twice. *)
Definition findLine (file source codeToMatch : string) : Z + error :=
  let codeIndex := strings.Index source codeToMatch in
  if (codeIndex =? -1)%Z then inr ("cannot find matching code on " ++ file)
  else if negb (strings.LastIndex source codeToMatch =? codeIndex)%Z
  then inr ("code found twice in " ++ file)
  else
    inl (strings.Count
           (strings.take (Z.to_nat (codeIndex + Z.of_nat (String.length codeToMatch)))
                         source)
           LF + 1)%Z.

(** [func (t *trace) addFileLineBreakpoint(fileRegex string, codeToMatch
    string, handler func() error) error] *)
Definition addFileLineBreakpoint (env : Env) (t : trace breakpoint)
    (fileRegex codeToMatch : string) (h : option Handler)
  : trace breakpoint * option error :=
  match regexpCompile env fileRegex with
  | inr e => (t, Some (wrapf "invalid file regex: " e))
  | inl fileRegexp =>
      match findFile fileRegexp fileRegex (Sources env) "" with
      | inr e => (t, Some e)
      | inl file =>
          if String.eqb file ""
          then (t, Some ("unable to find file matching " ++ fileRegex))
          else
            let cached := default "" (sourceCache t !! file) in
            let read : (trace breakpoint * string) + error :=
              if String.eqb cached "" then
                match readFile env file with
                | inr e => inr ("failed reading " ++ file ++ ": " ++ e)
                | inl b =>
                    let source := strings.ReplaceAll b CRLF LF in
                    inl (setSource t file source, source)
                end
              else inl (t, cached) in
            match read with
            | inr e => (t, Some e)
            | inl (t1, source) =>
                match findLine file source codeToMatch with
                | inr e => (t1, Some e)
                | inl line => register env t1 file line "" h
                end
            end
      end
  end.

(** [err = f(); if err == nil { err = g() }] *)
Definition andThen (r : trace breakpoint * option error)
    (f : trace breakpoint -> trace breakpoint * option error)
  : trace breakpoint * option error :=
  match r with
  | (t, None) => f t
  | (t, Some e) => (t, Some e)
  end.

(** [func (t *trace) close()]: failures of the two calls are logged only. *)
Definition close (t : trace breakpoint) : trace breakpoint :=
  logEffect (logEffect t (Command api.Halt)) Detach.

Definition matchInternalPkg : string := ".*/go\.temporal\.io/sdk.*/internal/".
Definition matchInternalEventHandlers : string :=
  matchInternalPkg ++ "internal_event_handlers\.go".
Definition matchInternalTaskHandlers : string :=
  matchInternalPkg ++ "internal_task_handlers\.go".
Definition matchInternalWorkflow : string :=
  matchInternalPkg ++ "internal_workflow\.go".

(** [func (tr *Tracer) newTrace(dir, exe string)]: the trace, and the error
    with which a nil trace is returned. *)
Definition newTrace (env : Env) (tr : Tracer) : trace breakpoint * option error :=
  let t := logEffect emptyTrace DebuggerNew in
  match debuggerNew env with
  | Some e => (t, Some (wrapf "failed creating debugger: " e))
  | None =>
      let r := addFuncBreakpoint env t (fnPkg tr ++ "." ++ fn tr) None in
      let r := andThen r (fun t =>
        addFileLineBreakpoint env t matchInternalEventHandlers
          (TAB ++ "if event == nil {") (Some OnProcessEvent)) in
      let r := andThen r (fun t =>
        addFileLineBreakpoint env t matchInternalTaskHandlers
          "if len(eventCommands) > 0 && !skipReplayCheck {" (Some OnReplayCommands)) in
      let r := andThen r (fun t =>
        addFileLineBreakpoint env t matchInternalWorkflow
          (TAB ++ TAB ++ "f(spawned)") (Some PopulateCoroutineName)) in
      let r := andThen r (fun t =>
        addFileLineBreakpoint env t matchInternalWorkflow
          (TAB ++ "s.blocked.Swap(false)") None) in
      match r with
      | (t', Some e) => (close t', Some e)
      | (t', None) => (t', None)
      end
  end.

(** *** Tracer.Trace *)

(** [func (t *Tracer) buildClientOptionsCode() (string, error)]: its
    error. *)
Definition buildClientOptionsCode (tr : Tracer) : option error :=
  if String.eqb (HostPort (ClientOptions_ (config tr))) "" then Some "missing host:port"
  else if String.eqb (Namespace (ClientOptions_ (config tr))) "" then Some "missing namespace"
  else None.

(** [func (t *Tracer) buildReplayMainCode() ([]byte, error)]: its error.
    The text of the driver is of no concern here. *)
Definition buildReplayMainCode (env : Env) (tr : Tracer) : option error :=
  match buildClientOptionsCode tr with
  | Some e => Some (wrapf "invalid client options: " e)
  | None => formatSource env
  end.

(** What a call of [Trace] leaves behind: the pair it returns (when it
    returns), how it ends, and what it did to its surroundings. *)
Record Traced : Type := {
  returnedResult : option Result;
  status : Status;
  done : list Effect
}.

(** The deferred removal of the temporary directory. *)
Definition removeTemp (tr : Tracer) : list Effect :=
  if RetainTempDir (config tr) then [] else [RemoveAll].

(** [func (t *Tracer) Trace(ctx context.Context)], returning a [Result]
    and an error. *)
Definition Trace (env : Env) (tr : Tracer) : Traced :=
  let fails (e : error) (did : list Effect) :=
    {| returnedResult := None; status := Returned (Some e); done := did |} in
  match mkdirTemp env with
  | Some e => fails (wrapf "failed creating temp dir: " e) [MkdirTemp]
  | None =>
  match absDir env with
  | Some e => fails (wrapf "could not turn dir absolute: " e) [MkdirTemp]
  | None =>
  match buildReplayMainCode env tr with
  | Some e => fails (wrapf "failed building temp main.go: " e) ([MkdirTemp] ++ removeTemp tr)%list
  | None =>
  match writeFile env with
  | Some e =>
      fails (wrapf "failed writing temp main.go: " e)
            ([MkdirTemp; WriteMainGo] ++ removeTemp tr)%list
  | None =>
  match goBuild env with
  | Some e =>
      fails (wrapf "failed building main exe: " e)
            ([MkdirTemp; WriteMainGo; GoBuild] ++ removeTemp tr)%list
  | None =>
      let built := [MkdirTemp; WriteMainGo; GoBuild] in
      match newTrace env tr with
      | (t, Some e) => fails e (built ++ effects t ++ removeTemp tr)%list
      | (t, None) =>
          match run env t with
          | (t', Returned err) =>
              {| returnedResult := Some (result t');
                 status := Returned err;
                 done := (built ++ effects (close t') ++ removeTemp tr)%list |}
          | (t', Panicked w) =>
              {| returnedResult := None;
                 status := Panicked w;
                 done := (built ++ effects (close t') ++ removeTemp tr)%list |}
          | (t', Blocked) =>
              {| returnedResult := None;
                 status := Blocked;
                 done := (built ++ effects t')%list |}
          end
      end
  end end end end end.

(** [t, err := tracer.New(config)] and, when that succeeds, [t.Trace(ctx)]:
    how the command line and the tests use the package. *)
Definition newAndTrace (env : Env) (cfg : Config) : Traced :=
  match New cfg with
  | inr e => {| returnedResult := None; status := Returned (Some e); done := [] |}
  | inl tr => Trace env tr
  end.

(** ** The revision of trace.go whose breakpoints carry [forStepping]

    The stepping loop of the earlier revision of trace.go: a breakpoint
    says whether stepping resumes at it, and a breakpoint hit while a
    step is in flight is answered by that flag. *)

Module ForStepping.

(** What a [handler] closure is bound to; this revision has no command
    handler. *)
Inductive Handler : Type :=
| OnProcessEvent
| PopulateCoroutineName.

(** [type breakpoint struct] *)
Record breakpoint : Type := {
  Breakpoint : api.Breakpoint;
  forStepping : bool;
  handler : option Handler
}.

(** The [EventType] branch of [onProcessEvent], which this revision
    writes out in place. *)
Definition eventTypeOf (value : string) : res Z :=
  match strings.index_nat value "(" with
  | None =>
      Err ("invalid event type " ++ DQUOTE ++ value ++ DQUOTE
             ++ ", expected int in parens at the end")
  | Some beginParens =>
      if negb (strings.HasSuffix value ")")
      then Err ("invalid event type " ++ DQUOTE ++ value ++ DQUOTE
                  ++ ", expected int in parens at the end")
      else
        let* intStr := slice value (beginParens + 1) (String.length value - 1) in
        onError (strconv.Atoi intStr)
          (fun e => "invalid event type " ++ DQUOTE ++ value ++ DQUOTE
                      ++ ", failed converting to int: " ++ e)
  end.

Definition eventChild (event : EventServer) (child : api.Var) : res EventServer :=
  if String.eqb (api.Name child) "EventId" then
    let* id := onError (strconv.ParseInt (api.Value child))
                 (fun e => "invalid event ID " ++ api.Value child ++ ": " ++ e) in
    Ok {| ID := id; Type_ := Type_ event |}
  else if String.eqb (api.Name child) "EventType" then
    let* i := eventTypeOf (api.Value child) in
    Ok {| ID := ID event; Type_ := wrap32 i |}
  else Ok event.

Definition eventArg (event : EventServer) (arg : api.Var) : res EventServer :=
  if String.eqb (api.Name arg) "event" then
    let* c0 := firstChild arg in
    foldM eventChild (api.Children c0) event
  else Ok event.

(** [func (t *trace) onProcessEvent() error] *)
Definition onProcessEvent (t : trace breakpoint) (st : Stop) : res (trace breakpoint) :=
  let* vars := loadVars (FunctionArguments st) in
  let* event := foldM eventArg vars {| ID := 0; Type_ := 0 |} in
  Ok (appendEvent t (serverEvent event)).

Definition runHandler (h : Handler) (t : trace breakpoint) (st : Stop)
    (th : api.Thread) : res (trace breakpoint) :=
  match h with
  | OnProcessEvent => onProcessEvent t st
  | PopulateCoroutineName => populateCoroutineName t st th
  end.

(** The first block of the loop body: the trace after the handler, and
    [bp] (nil when no breakpoint was hit). *)
Definition hitBreakpoint (t : trace breakpoint) (st : Stop) (th : api.Thread)
  : res (trace breakpoint * option breakpoint) :=
  match api.BreakpointID th with
  | None => Ok (t, None)
  | Some id =>
      match breakpoints t !! id with
      | None => Panic "nil pointer dereference"
      | Some bp =>
          match handler bp with
          | None => Ok (t, Some bp)
          | Some h => let* t' := runHandler h t st th in Ok (t', Some bp)
          end
      end
  end.

(** [bp == nil || !bp.forStepping] *)
Definition notForStepping (bp : option breakpoint) : bool :=
  match bp with
  | None => true
  | Some b => negb (forStepping b)
  end.

Definition goStdOrTemporal (env : Env) (th : api.Thread) : bool :=
  strings.HasPrefix (filepath.ToSlash (Separator env) (api.File th)) (goRootSrc env)
  || strings.HasPrefix (api.FunctionName th) "go.temporal.io/sdk/"
  || String.eqb (api.FunctionName th) "main.main".

Definition codeStep (t : trace breakpoint) (th : api.Thread) : Event :=
  codeEvent {| Package := "";
               File := api.File th;
               Line := api.Line th;
               Coroutine := default "" (coroutineNames t !! api.GoroutineID th) |}.

(** The body of the loop of [run], up to the command it gives. *)
Definition iteration (env : Env) (t : trace breakpoint) (st : Stop) (th : api.Thread)
  : trace breakpoint * Decision :=
  match hitBreakpoint t st th with
  | Err e => (t, Abort e)
  | Panic w => (t, Crash w)
  | Ok (t1, bp) =>
      if api.NextInProgress (state st) && notForStepping bp
      then (t1, Issue api.Continue "failed continuing while next in progress: ")
      else
        let t2 :=
          if api.NextInProgress (state st) then logEffect t1 CancelNextCall else t1 in
        match (if api.NextInProgress (state st) then CancelNext st else None) with
        | Some e => (t2, Abort (wrapf "failed cancelling next: " e))
        | None =>
            if notForStepping bp && goStdOrTemporal env th
            then (t2, Issue api.StepOut "failed stepping out: ")
            else
              let t3 :=
                if negb (String.eqb (api.File th) "") && negb (goStdOrTemporal env th)
                then appendEvent t2 (codeStep t2 th)
                else t2 in
              (t3, Issue api.Step "failed stepping: ")
        end
  end.

(** The condition of the loop: the thread to go on with, if any. *)
Definition goesOn (s : api.DebuggerState) : option api.Thread :=
  if api.Exited s then None
  else
    match api.CurrentThread s with
    | None => None
    | Some th =>
        if String.eqb (api.FunctionName th) "runtime.goexit" then None else Some th
    end.

Fixpoint loop (env : Env) (rest : list Response) (t : trace breakpoint) (st : Stop)
  : trace breakpoint * Status :=
  match goesOn (state st) with
  | None => (t, Returned (exitError (state st)))
  | Some th =>
      match iteration env t st th with
      | (t', Abort e) => (t', Returned (Some e))
      | (t', Crash w) => (t', Panicked w)
      | (t', Issue c ctx) =>
          let t'' := logEffect t' (Command c) in
          match rest with
          | [] => (t'', Blocked)
          | inr e :: _ => (t'', Returned (Some (wrapf ctx e)))
          | inl st' :: rest' => loop env rest' t'' st'
          end
      end
  end.

(** [func (t *trace) run() error] *)
Definition run (env : Env) (t : trace breakpoint) : trace breakpoint * Status :=
  let t' := logEffect t (Command api.Continue) in
  match script env with
  | [] => (t', Blocked)
  | inr e :: _ => (t', Returned (Some (wrapf "failed starting execution: " e)))
  | inl st :: rest => loop env rest t' st
  end.

End ForStepping.

(** ** Sample inputs *)

Module Sample.

(** A few constants of [enums.EventType] and [enums.CommandType]. *)
Definition eventTypes : enums.Tables :=
  {| enums.name_of :=
       list_to_map [(0, "Unspecified"); (1, "WorkflowExecutionStarted");
                    (5, "WorkflowTaskScheduled"); (6, "WorkflowTaskStarted");
                    (7, "WorkflowTaskCompleted")];
     enums.value_of :=
       list_to_map [("Unspecified", 0); ("WorkflowExecutionStarted", 1);
                    ("WorkflowTaskScheduled", 5); ("WorkflowTaskStarted", 6);
                    ("WorkflowTaskCompleted", 7)] |}.

Definition commandTypes : enums.Tables :=
  {| enums.name_of :=
       list_to_map [(0, "Unspecified"); (1, "ScheduleActivityTask");
                    (2, "RequestCancelActivityTask"); (3, "StartTimer")];
     enums.value_of :=
       list_to_map [("Unspecified", 0); ("ScheduleActivityTask", 1);
                    ("RequestCancelActivityTask", 2); ("StartTimer", 3)] |}.

Definition options : ClientOptions :=
  {| HostPort := "localhost:7233"; Namespace := "default" |}.

(** A configuration with both an execution and a history file. *)
Definition bothSources : Config :=
  {| ClientOptions_ := options; Log := false;
     WorkflowFuncs := ["example.com/app.MyWorkflow"];
     Execution_ := Some {| ExecutionID := "wf-1"; RunID := "" |};
     HistoryFile := "history.json"; RootDir := "."; RetainTempDir := false;
     ExcludeFuncs := []; ExcludeFiles := []; IncludeTemporalInternal := false |}.

(** A configuration that traces [example.com/app.MyWorkflow] from a
    recorded execution. *)
Definition cfg : Config :=
  {| ClientOptions_ := options; Log := false;
     WorkflowFuncs := ["example.com/app.MyWorkflow"];
     Execution_ := Some {| ExecutionID := "wf-1"; RunID := "" |};
     HistoryFile := ""; RootDir := "."; RetainTempDir := false;
     ExcludeFuncs := []; ExcludeFiles := []; IncludeTemporalInternal := false |}.

Definition tracer : Tracer :=
  {| config := withLog cfg true; fnPkg := "example.com/app"; fn := "MyWorkflow" |}.

Definition sdk : string := "/go/pkg/mod/go.temporal.io/sdk@v1.12.0/internal/".
Definition eventHandlersGo : string := sdk ++ "internal_event_handlers.go".
Definition taskHandlersGo : string := sdk ++ "internal_task_handlers.go".
Definition workflowGo : string := sdk ++ "internal_workflow.go".
Definition userGo : string := "/work/app/workflow.go".

Definition contains (s sub : string) : bool :=
  match strings.index_nat s sub with
  | Some _ => true
  | None => false
  end.

(** The three patterns of [newTrace] ask for a path through the SDK that
    ends in a given file of its internal package. *)
Definition compile (p : string) : Regexp + error :=
  let file :=
    if String.eqb p matchInternalEventHandlers then "/internal/internal_event_handlers.go"
    else if String.eqb p matchInternalTaskHandlers then "/internal/internal_task_handlers.go"
    else "/internal/internal_workflow.go" in
  inl {| pattern := p;
         MatchString := fun s => contains s "/go.temporal.io/sdk" && contains s file |}.

Definition files (path : string) : string + error :=
  if String.eqb path eventHandlersGo then
    inl ("func ProcessEvent(event *Event) {" ++ CRLF ++ TAB ++ "if event == nil {" ++ CRLF
           ++ TAB ++ TAB ++ "return" ++ CRLF ++ TAB ++ "}" ++ CRLF ++ "}" ++ CRLF)
  else if String.eqb path taskHandlersGo then
    inl ("func check() {" ++ LF ++ TAB
           ++ "if len(eventCommands) > 0 && !skipReplayCheck {" ++ LF ++ TAB ++ "}" ++ LF
           ++ "}" ++ LF)
  else if String.eqb path workflowGo then
    inl ("func initialYield() {" ++ LF ++ TAB ++ "s.blocked.Swap(false)" ++ LF ++ "}" ++ LF
           ++ "func spawn() {" ++ LF ++ TAB ++ "go func() {" ++ LF
           ++ TAB ++ TAB ++ "f(spawned)" ++ LF ++ TAB ++ "}()" ++ LF ++ "}" ++ LF)
  else inr "no such file".

(** The debugger numbers the breakpoints: 1 the workflow function, 2 the
    event marker, 3 the command marker, and 10 plus the line for those of
    internal_workflow.go (16 the spawn marker, 12 the end of the initial
    yield). *)
Definition numbering (file : string) (line : Z) (fn : string) : Z + error :=
  if negb (String.eqb fn "") then inl 1
  else if String.eqb file eventHandlersGo then inl 2
  else if String.eqb file taskHandlersGo then inl 3
  else inl (10 + line).

Definition thread (file : string) (line : Z) (fn : string) (g : Z) (bp : option Z)
  : api.Thread :=
  {| api.File := file; api.Line := line; api.FunctionName := fn;
     api.GoroutineID := g; api.BreakpointID := bp |}.

Definition stopAt (th : api.Thread) (next : bool) (args locals : list api.Var) : Stop :=
  {| state := {| api.Exited := false; api.ExitStatus := 0;
                 api.CurrentThread := Some th; api.NextInProgress := next |};
     FunctionArguments := inl args; LocalVariables := inl locals;
     CurrentPackage := "example.com/app"; CancelNext := None |}.

Definition exitedWith (code : Z) : Stop :=
  {| state := {| api.Exited := true; api.ExitStatus := code;
                 api.CurrentThread := None; api.NextInProgress := false |};
     FunctionArguments := inr "process exited"; LocalVariables := inr "process exited";
     CurrentPackage := ""; CancelNext := None |}.

(** A pointer argument: its only child is the struct pointed to. *)
Definition pointer (name : string) (fields : list api.Var) : api.Var :=
  api.mkVar name "" [api.mkVar "" "" fields].

Definition eventArgs (id type : string) : list api.Var :=
  [pointer "event" [api.mkVar "EventId" id []; api.mkVar "EventType" type []]].

Definition crtArgs (name : string) : list api.Var :=
  [pointer "crt" [api.mkVar "name" name []]].

Definition commandLocals (types : list string) : list api.Var :=
  [api.mkVar "eventCommands" ""
     (map (fun ty => pointer "" [api.mkVar "CommandType" ty []]) types)].

Definition processEvent : string :=
  "go.temporal.io/sdk/internal.(*workflowExecutionEventHandlerImpl).ProcessEvent".
Definition spawned : string :=
  "go.temporal.io/sdk/internal.(*dispatcherImpl).newNamedCoroutine.func1".
Definition taskHandler : string :=
  "go.temporal.io/sdk/internal.(*workflowExecutionContextImpl).ProcessWorkflowTask".

(** The stops of a short replay. *)
Definition atEvent : Stop :=
  stopAt (thread eventHandlersGo 2 processEvent 1 (Some 2)) false
    (eventArgs "1" "WorkflowExecutionStarted (1)") [].
Definition atEntry : Stop :=
  stopAt (thread userGo 12 "example.com/app.MyWorkflow" 7 (Some 1)) false [] [].
Definition atSpawn (name : string) : Stop :=
  stopAt (thread workflowGo 6 spawned 8 (Some 16)) false (crtArgs name) [].
Definition inCoroutine : Stop :=
  stopAt (thread userGo 20 "example.com/app.MyWorkflow.func1" 8 None) false [] [].
Definition atCommands (types : list string) : Stop :=
  stopAt (thread taskHandlersGo 2 taskHandler 1 (Some 3)) false [] (commandLocals types).

Definition replay : list Response :=
  [inl atEvent; inl atEntry; inl (atSpawn "worker"); inl inCoroutine;
   inl (atCommands ["ScheduleActivityTask (1)"]); inl (exitedWith 2)].

Definition envWith (responses : list Response) : Env :=
  {| goRootSrc := "/usr/local/go/src"; Separator := "/"%char;
     regexpCompile := compile;
     mkdirTemp := None; absDir := None; formatSource := None; writeFile := None;
     goBuild := None; debuggerNew := None;
     Sources := [userGo; eventHandlersGo; taskHandlersGo; workflowGo];
     readFile := files;
     createBreakpoint := numbering;
     script := responses |}.

Definition env : Env := envWith replay.

(** The session [newTrace] sets up in [env]. *)
Definition session : trace breakpoint := fst (newTrace env tracer).

End Sample.

(** [f] contains no dot. *)
Definition noDot (f : string) : Prop :=
  ~ In "."%char (list_ascii_of_string f).

(** The surroundings in which everything succeeds and the debugger has
    nothing to say. *)
Definition quietEnv : Env :=
  {| goRootSrc := "/usr/local/go/src"; Separator := "/"%char;
     regexpCompile := fun p => inl {| pattern := p; MatchString := fun _ => false |};
     mkdirTemp := None; absDir := None; formatSource := None; writeFile := None;
     goBuild := None; debuggerNew := None; Sources := [];
     readFile := fun _ => inr "no such file";
     createBreakpoint := fun _ _ _ => inl 1;
     script := [] |}.

(** ** Notions the properties are stated with *)

(** The loop, followed for [n] passes from the top of the loop at
    ([rest], [t], [st]): the stops passed, and the configuration in which
    the loop is at its top again; [None] when the run has ended before. *)
Fixpoint arrive (env : Env) (n : nat) (rest : list Response) (t : trace breakpoint)
    (st : Stop) : option (list Stop * list Response * trace breakpoint * Stop) :=
  match n with
  | O => Some ([], rest, t, st)
  | S n' =>
      if api.Exited (state st) then None
      else
        match api.CurrentThread (state st) with
        | None => None
        | Some th =>
            match iteration env t st th, rest with
            | (t', Issue c _), inl st' :: rest' =>
                match arrive env n' rest' (logEffect t' (Command c)) st' with
                | Some (passed, r, t'', st'') => Some (st :: passed, r, t'', st'')
                | None => None
                end
            | _, _ => None
            end
        end
  end.

(** The naming observation made at a stop, if one is made: the stop is at
    a breakpoint bound to [populateCoroutineName] and the handler finds a
    name. *)
Definition namingObservation (bps : gmap Z breakpoint) (st : Stop) : option (Z * string) :=
  match api.CurrentThread (state st) with
  | None => None
  | Some th =>
      match api.BreakpointID th with
      | None => None
      | Some id =>
          match bps !! id with
          | Some {| handler := Some PopulateCoroutineName |} =>
              match FunctionArguments st with
              | inl vars =>
                  match crtName vars with
                  | Ok (Some n) => Some (api.GoroutineID th, n)
                  | _ => None
                  end
              | inr _ => None
              end
          | _ => None
          end
      end
  end.

(** The names on record after the naming observations of [stops], in the
    order of the stops: a later observation for a unit replaces an earlier
    one. *)
Definition recordNames (bps : gmap Z breakpoint) (stops : list Stop)
    (names : gmap Z string) : gmap Z string :=
  fold_left (fun m st =>
               match namingObservation bps st with
               | Some (u, n) => <[u := n]> m
               | None => m
               end) stops names.

(** Every command batch among [events] has a command. *)
Definition batchesNonEmpty (events : list Event) : Prop :=
  Forall (fun e => forall c, Client e = Some c -> Commands c <> []) events.

(** What a handler appends: an external event, or a command batch that
    holds a command. *)
Definition handlerEvent (e : Event) : Prop :=
  (exists ev, e = serverEvent ev)
  \/ (exists cs, cs <> [] /\ e = clientEvent {| Commands := cs |}).

(** The names on record once the handler of the stop [st] has run. *)
Definition namesAfter (bps : gmap Z breakpoint) (st : Stop) (names : gmap Z string)
  : gmap Z string :=
  match namingObservation bps st with
  | Some (u, n) => <[u := n]> names
  | None => names
  end.

(** What the loop appends: what a handler appends, or a code step. *)
Definition tracedEvent (e : Event) : Prop :=
  handlerEvent e \/ exists c, e = codeEvent c.

(** Setting up the breakpoints leaves the result and the names alone. *)
Definition sameRecord (t t' : trace breakpoint) : Prop :=
  result t' = result t /\ coroutineNames t' = coroutineNames t.

(** No naming observation for the unit [u] is made at the stop [st]. *)
Definition quietFor (bps : gmap Z breakpoint) (u : Z) (st : Stop) : Prop :=
  forall n : string, namingObservation bps st <> Some (u, n).

(** The zero value of [EventServer]. *)
Definition zeroEvent : EventServer := {| ID := 0; Type_ := 0 |}.

(** The struct behind the pointer [arg] has no field called [EventId] or
    [EventType]. *)
Definition lacksEventFields (arg : api.Var) : Prop :=
  exists c0,
    firstChild arg = Ok c0
    /\ forall child, In child (api.Children c0) ->
                     api.Name child <> "EventId" /\ api.Name child <> "EventType".

(** The struct behind the pointer [arg] has no field called [name]. *)
Definition lacksName (arg : api.Var) : Prop :=
  exists c0, firstChild arg = Ok c0 /\ findName (api.Children c0) = None.

(** The event marker hit while a step is in flight. *)
Definition eventWhileStepping : Stop :=
  Sample.stopAt (Sample.thread Sample.eventHandlersGo 2 Sample.processEvent 1 (Some 2))
    true (Sample.eventArgs "3" "WorkflowTaskStarted (6)") [].

Definition eventThread : api.Thread :=
  Sample.thread Sample.eventHandlersGo 2 Sample.processEvent 1 (Some 2).

(** A caller's exclusion pattern for the function of the coroutine of the
    sample, [^example\.com/app\.MyWorkflow\.func1$], and a configuration
    that carries it. *)
Definition excludeCoroutine : Regexp :=
  {| pattern := "^example\.com/app\.MyWorkflow\.func1$";
     MatchString := String.eqb "example.com/app.MyWorkflow.func1" |}.

Definition cfgExcluding : Config :=
  {| ClientOptions_ := Sample.options; Log := true;
     WorkflowFuncs := ["example.com/app.MyWorkflow"];
     Execution_ := Some {| ExecutionID := "wf-1"; RunID := "" |};
     HistoryFile := ""; RootDir := "."; RetainTempDir := false;
     ExcludeFuncs := [excludeCoroutine]; ExcludeFiles := [];
     IncludeTemporalInternal := false |}.

(** The tracer [tr] with other exclusion patterns. *)
Definition withExcludes (tr : Tracer) (funcs files : list Regexp) : Tracer :=
  {| config :=
       {| ClientOptions_ := ClientOptions_ (config tr); Log := Log (config tr);
          WorkflowFuncs := WorkflowFuncs (config tr);
          Execution_ := Execution_ (config tr);
          HistoryFile := HistoryFile (config tr); RootDir := RootDir (config tr);
          RetainTempDir := RetainTempDir (config tr);
          ExcludeFuncs := funcs; ExcludeFiles := files;
          IncludeTemporalInternal := IncludeTemporalInternal (config tr) |};
     fnPkg := fnPkg tr; fn := fn tr |}.

(** ** Notions of the source locator *)

(** The positions at which [sub] occurs in [s], in increasing order;
    occurrences may overlap. *)
Fixpoint occurrences (s sub : string) : list nat :=
  ((if String.prefix sub s then [O] else [])
     ++ match s with
        | EmptyString => []
        | String _ s' => S <$> occurrences s' sub
        end)%list.

(** The number of newline characters of [s]. *)
Definition newlines (s : string) : Z :=
  Z.of_nat (length (List.filter (Ascii.eqb (ascii_of_nat 10)) (list_ascii_of_string s))).

(** What the cache holds for a file is the text of the file with its line
    endings normalized. *)
Definition cacheCoherent (env : Env) (t : trace breakpoint) : Prop :=
  forall (file source : string),
    sourceCache t !! file = Some source ->
    source <> "" ->
    exists b, readFile env file = inl b /\ source = strings.ReplaceAll b CRLF LF.

(** ** The sample run, followed pass by pass *)

(** Where the loop is after [n] passes of the sample run. *)
Definition sampleArrival (n : nat)
  : option (list Stop * list Response * trace breakpoint * Stop) :=
  arrive Sample.env n (tl Sample.replay)
    (logEffect Sample.session (Command api.Continue)) Sample.atEvent.

Definition passedOf (o : option (list Stop * list Response * trace breakpoint * Stop))
  : list Stop :=
  match o with Some (p, _, _, _) => p | None => [] end.
Definition restOf (o : option (list Stop * list Response * trace breakpoint * Stop))
  : list Response :=
  match o with Some (_, r, _, _) => r | None => [] end.
Definition traceOf (o : option (list Stop * list Response * trace breakpoint * Stop))
  : trace breakpoint :=
  match o with Some (_, _, t, _) => t | None => emptyTrace end.
Definition stopOf (o : option (list Stop * list Response * trace breakpoint * Stop))
  : Stop :=
  match o with Some (_, _, _, st) => st | None => Sample.exitedWith 0 end.

(** The thread of the stop in the coroutine of the sample, and the code
    step the loop records there. *)
Definition coroutineThread : api.Thread :=
  Sample.thread Sample.userGo 20 "example.com/app.MyWorkflow.func1" 8 None.

Definition workerStep : EventCode :=
  {| Package := "example.com/app"; File := Sample.userGo; Line := 20;
     Coroutine := "worker" |}.

(** The event marker hit in a frame that holds no argument. *)
Definition eventMissing : Stop := Sample.stopAt eventThread false [] [].

(** The tracer [New] makes of [cfgExcluding], and the events of the sample
    run. *)
Definition tracerExcluding : Tracer :=
  {| config := cfgExcluding; fnPkg := "example.com/app"; fn := "MyWorkflow" |}.

Definition sampleEvents : list Event :=
  [serverEvent {| ID := 1; Type_ := 1 |};
   codeEvent {| Package := "example.com/app"; File := Sample.userGo; Line := 12;
                Coroutine := "" |};
   codeEvent workerStep;
   clientEvent {| Commands := [1] |}].

(** The compiled pattern of the event marker and the text of the file it
    selects in the sample. *)
Definition eventHandlersRegexp : Regexp :=
  match Sample.compile matchInternalEventHandlers with
  | inl re => re
  | inr _ => {| pattern := ""; MatchString := fun _ => false |}
  end.

Definition eventHandlersText : string :=
  match Sample.files Sample.eventHandlersGo with
  | inl b => b
  | inr _ => ""
  end.

(** ** cmd/trace.go: from the flags to the configuration *)

(** The [tracer.Config] literal of [trace], with [ExcludeFuncs] and
    [ExcludeFiles] as they are assigned afterwards; the fields it does not
    name are zero. *)
Definition configLiteral (address namespace func root : string) (retain : bool)
    (execution : option Execution) (history : string) (funcs files : list Regexp)
  : Config :=
  {| ClientOptions_ := {| HostPort := address; Namespace := namespace |};
     Log := false;
     WorkflowFuncs := [func];
     Execution_ := execution;
     HistoryFile := history;
     RootDir := root;
     RetainTempDir := retain;
     ExcludeFuncs := funcs;
     ExcludeFiles := files;
     IncludeTemporalInternal := false |}.

Definition executionOf (id run : string) : Execution :=
  {| ExecutionID := id; RunID := run |}.

Module cmd.

(** [type TraceConfig struct]: the values of the flags; a
    [cli.StringSlice] is the list [Value()] returns. *)
Record TraceConfig : Type := {
  Address : string;
  Namespace : string;
  WorkflowID : string;
  RunID : string;
  HistoryFile : string;
  Func : string;
  OutputStdout : bool;
  OutputJSONFile : string;
  OutputHTMLDir : string;
  RootDir : string;
  RetainTempDir : bool;
  ExcludeFuncs : list string;
  ExcludeFiles : list string
}.

(** [func stringsToRegexps(strs []string) ([]*regexp.Regexp, error)];
    [compile] is [regexp.Compile]. *)
Fixpoint stringsToRegexps (compile : string -> Regexp + error) (strs : list string)
  : list Regexp + error :=
  match strs with
  | [] => inl []
  | str :: rest =>
      match compile str with
      | inr e => inr ("invalid regex " ++ str ++ ": " ++ e)
      | inl re =>
          match stringsToRegexps compile rest with
          | inr e => inr e
          | inl res => inl (re :: res)
          end
      end
  end.

(** The first part of [func trace(ctx context.Context, config TraceConfig)
    error]: the [tracer.Config] it builds, or the error it returns before
    calling [tracer.New]. *)
Definition tracerConfig (compile : string -> Regexp + error) (config : TraceConfig)
  : Config + error :=
  let base (execution : option Execution) (history : string) : Config + error :=
    match stringsToRegexps compile (ExcludeFuncs config) with
    | inr e => inr e
    | inl funcs =>
        match stringsToRegexps compile (ExcludeFiles config) with
        | inr e => inr e
        | inl files =>
            inl (configLiteral (Address config) (Namespace config) (Func config)
                   (RootDir config) (RetainTempDir config) execution history
                   funcs files)
        end
    end in
  if negb (String.eqb (WorkflowID config) "") then
    if negb (String.eqb (HistoryFile config) "")
    then inr "cannot have both workflow ID and history file"
    else base (Some (executionOf (WorkflowID config) (RunID config))) ""
  else if negb (String.eqb (RunID config) "")
  then inr "cannot have run ID without workflow ID"
  else if String.eqb (HistoryFile config) ""
  then inr "must have either workflow ID or history file"
  else base None (HistoryFile config).

End cmd.

(** ** Notions of the further properties *)

(** What the loop asks of the debugger: to cancel a step, to step, to step
    out. *)
Definition steppingEffect (e : Effect) : Prop :=
  e = CancelNextCall \/ e = Command api.Step \/ e = Command api.StepOut.

(** A request for a breakpoint. *)
Definition isCreateBreakpoint (e : Effect) : Prop :=
  exists file line fn, e = CreateBreakpoint file line fn.

(** All of the setup before the debugger succeeds. *)
Definition built (env : Env) (tr : Tracer) : Prop :=
  mkdirTemp env = None /\ absDir env = None /\ buildReplayMainCode env tr = None
  /\ writeFile env = None /\ goBuild env = None.

(** The sample run with a clean exit. *)
Definition cleanEnv : Env :=
  Sample.envWith [inl Sample.atEvent; inl Sample.atEntry; inl (Sample.exitedWith 0)].

(** A stop at a breakpoint the registry of the sample does not hold. *)
Definition strayThread : api.Thread :=
  Sample.thread Sample.userGo 30 "example.com/app.Other" 7 (Some 99).
Definition strayStop : Stop := Sample.stopAt strayThread false [] [].

(** The locals of the command marker with two commands, among others. *)
Definition twoCommands : list api.Var :=
  [api.mkVar "task" "" [];
   api.mkVar "eventCommands" ""
     [Sample.pointer "" [api.mkVar "CommandType" "ScheduleActivityTask (1)" []];
      Sample.pointer "" [api.mkVar "CommandType" "StartTimer (3)" []]];
   api.mkVar "skipReplayCheck" "false" []].

(** The flags of a trace of a recorded execution. *)
Definition flags : cmd.TraceConfig :=
  {| cmd.Address := "localhost:7233"; cmd.Namespace := "default";
     cmd.WorkflowID := "wf-1"; cmd.RunID := ""; cmd.HistoryFile := "";
     cmd.Func := "example.com/app.MyWorkflow"; cmd.OutputStdout := true;
     cmd.OutputJSONFile := ""; cmd.OutputHTMLDir := ""; cmd.RootDir := ".";
     cmd.RetainTempDir := false; cmd.ExcludeFuncs := []; cmd.ExcludeFiles := [] |}.

(** * Properties *)

(** ** Sanity of the library models *)

Example strings_smoke :
  strings.Index "abcabc" "bc" = 1 /\ strings.LastIndex "abcabc" "bc" = 4
  /\ strings.Index "abc" "x" = -1 /\ strings.Index "abc" "" = 0
  /\ strings.LastIndex "abc" "" = 3
  /\ strings.Count ("a" ++ LF ++ "b" ++ LF) LF = 2
  /\ strings.ReplaceAll ("a" ++ CRLF ++ "b" ++ CR ++ CRLF) CRLF LF = "a" ++ LF ++ "b" ++ CR ++ LF
  /\ strings.HasSuffix "Foo (12)" ")" = true
  /\ strconv.ParseInt "-9223372036854775808" = Ok (-9223372036854775808)
  /\ strconv.ParseInt "9223372036854775807" = Ok 9223372036854775807
  /\ strconv.Atoi "+12" = Ok 12
  /\ strconv.Itoa 1203 = "1203" /\ strconv.Itoa (-7) = "-7" /\ strconv.Itoa 0 = "0"
  /\ wrap32 (2^31) = - 2^31.
Proof. vm_compute. repeat split; reflexivity. Qed.

(** ** result.go: text marshalling of the enumeration wrappers *)

(** C10.  For every value of [EventServerType], and of
    [EventClientCommandType], that is a named constant of the underlying
    enumeration, [UnmarshalText] applied to the text [MarshalText] returns
    gives the value back; and [UnmarshalText] returns no error whatever the
    text (a text that is no name stores the zero value). *)
Theorem enum_text_roundtrip (ET CT : enums.Tables) :
  enums.generated ET ->
  enums.generated CT ->
  (forall (e : Z) (s : string),
      enums.name_of ET !! e = Some s ->
      EventServerType.MarshalText ET e = (s, None)
      /\ EventServerType.UnmarshalText ET (fst (EventServerType.MarshalText ET e))
         = (e, None))
  /\ (forall (e : Z) (s : string),
      enums.name_of CT !! e = Some s ->
      EventClientCommandType.MarshalText CT e = (s, None)
      /\ EventClientCommandType.UnmarshalText CT
           (fst (EventClientCommandType.MarshalText CT e)) = (e, None))
  /\ (forall text : string,
      snd (EventServerType.UnmarshalText ET text) = None
      /\ snd (EventClientCommandType.UnmarshalText CT text) = None
      /\ (enums.value_of ET !! text = None ->
          fst (EventServerType.UnmarshalText ET text) = 0)
      /\ (enums.value_of CT !! text = None ->
          fst (EventClientCommandType.UnmarshalText CT text) = 0)).
Proof.
  intros HE HC. split; [|split].
  - intros e s Hs.
    unfold EventServerType.MarshalText, EventServerType.String, enums.EnumName,
      EventServerType.UnmarshalText.
    rewrite Hs. cbn. rewrite (HE _ _ Hs). auto.
  - intros e s Hs.
    unfold EventClientCommandType.MarshalText, EventClientCommandType.String,
      enums.EnumName, EventClientCommandType.UnmarshalText.
    rewrite Hs. cbn. rewrite (HC _ _ Hs). auto.
  - intros text.
    unfold EventServerType.UnmarshalText, EventClientCommandType.UnmarshalText.
    cbn. repeat split; intros ->; reflexivity.
Qed.

Lemma enum_text_roundtrip_witness :
  EventServerType.UnmarshalText Sample.eventTypes
    (fst (EventServerType.MarshalText Sample.eventTypes 6)) = (6, None)
  /\ EventClientCommandType.UnmarshalText Sample.commandTypes
       (fst (EventClientCommandType.MarshalText Sample.commandTypes 2)) = (2, None).
Proof.
  assert (HE : enums.generated Sample.eventTypes).
  { apply (bool_decide_unpack _). vm_compute. reflexivity. }
  assert (HC : enums.generated Sample.commandTypes).
  { apply (bool_decide_unpack _). vm_compute. reflexivity. }
  destruct (enum_text_roundtrip Sample.eventTypes Sample.commandTypes HE HC)
    as (H1 & H2 & _).
  split.
  - apply (H1 6 "WorkflowTaskStarted"). vm_compute. reflexivity.
  - apply (H2 2 "RequestCancelActivityTask"). vm_compute. reflexivity.
Defined.

(** ** tracer.go: validation of the configuration *)

Lemma prefix_cons (a b : ascii) (s1 s2 : string) :
  String.prefix (String a s1) (String b s2)
  = if ascii_dec a b then String.prefix s1 s2 else false.
Proof. reflexivity. Qed.

Lemma prefix_dot (c : ascii) (s : string) :
  String.prefix "." (String c s) = true -> c = "."%char.
Proof.
  rewrite prefix_cons.
  destruct (ascii_dec "." c) as [<-|]; [reflexivity | discriminate].
Qed.

Lemma lastIndex_noDot (f : string) : noDot f -> strings.lastIndex_nat f "." = None.
Proof.
  unfold noDot. induction f as [|c f IH]; intros Hno.
  - reflexivity.
  - change (strings.lastIndex_nat (String c f) ".")
      with (match strings.lastIndex_nat f "." with
            | Some i => Some (S i)
            | None => if String.prefix "." (String c f) then Some O else None
            end).
    rewrite IH.
    + destruct (String.prefix "." (String c f)) eqn:Hp; [|reflexivity].
      apply prefix_dot in Hp. subst c. exfalso. apply Hno. now left.
    + intros Hin. apply Hno. now right.
Qed.

(** C3.  For every configuration in which both of [Execution] and
    [HistoryFile] are set, or neither is, and for every configuration whose
    single workflow function contains no dot, [New] returns an error; and
    nothing has been done to the surroundings: no temporary directory, no
    build, no debugger. *)
Theorem New_rejects (env : Env) (cfg : Config) :
  (Execution_ cfg <> None /\ HistoryFile cfg <> "")
  \/ (Execution_ cfg = None /\ HistoryFile cfg = "")
  \/ (exists f : string, WorkflowFuncs cfg = [f] /\ noDot f) ->
  exists e : error,
    New cfg = inr e
    /\ done (newAndTrace env cfg) = []
    /\ returnedResult (newAndTrace env cfg) = None
    /\ status (newAndTrace env cfg) = Returned (Some e).
Proof.
  intros H.
  assert (HN : exists e : error, New cfg = inr e).
  { unfold New.
    destruct H as [[Hx Hh] | [[Hx Hh] | (f & Hf & Hno)]].
    - destruct (Execution_ cfg) as [x|]; [|congruence]. cbn.
      destruct (String.eqb_spec (HistoryFile cfg) ""); [congruence|].
      cbn. eauto.
    - rewrite Hx, Hh. cbn. eauto.
    - destruct (isNil (Execution_ cfg) && String.eqb (HistoryFile cfg) ""); [eauto|].
      destruct (negb (isNil (Execution_ cfg)) && negb (String.eqb (HistoryFile cfg) ""));
        [eauto|].
      rewrite Hf, (lastIndex_noDot f Hno). eauto. }
  destruct HN as [e He]. exists e.
  unfold newAndTrace. rewrite He. cbn. auto.
Qed.

Lemma New_rejects_witness :
  exists e : error,
    New Sample.bothSources = inr e
    /\ done (newAndTrace quietEnv Sample.bothSources) = []
    /\ returnedResult (newAndTrace quietEnv Sample.bothSources) = None
    /\ status (newAndTrace quietEnv Sample.bothSources) = Returned (Some e).
Proof.
  apply (New_rejects quietEnv Sample.bothSources).
  left. split; vm_compute; discriminate.
Defined.

(** ** The observation handlers *)

Lemma bind_Ok {A X : Type} (m : res A) (k : A -> res X) (x : X) :
  bind m k = Ok x -> exists a, m = Ok a /\ k a = Ok x.
Proof. destruct m; cbn; intros H; try discriminate; eauto. Qed.

Lemma bind_Err {A X : Type} (m : res A) (k : A -> res X) (e : error) :
  bind m k = Err e -> m = Err e \/ exists a, m = Ok a /\ k a = Err e.
Proof. destruct m; cbn; intros H; try discriminate; eauto. left. congruence. Qed.

Section HandlerFacts.
Context {B : Type}.
Implicit Types (t : trace B) (st : Stop) (th : api.Thread).

Lemma onProcessEvent_Ok t st t' :
  onProcessEvent t st = Ok t' ->
  exists vars ev,
    FunctionArguments st = inl vars /\ extractEvent vars = Ok ev
    /\ t' = appendEvent t (serverEvent ev).
Proof.
  unfold onProcessEvent. intros H.
  apply bind_Ok in H as (vars & Hv & H).
  apply bind_Ok in H as (ev & He & H).
  unfold loadVars in Hv. destruct (FunctionArguments st) as [vs|]; [|discriminate].
  exists vars, ev. inversion Hv; subst. inversion H. auto.
Qed.

Lemma onReplayCommands_Ok t st t' :
  onReplayCommands t st = Ok t' ->
  exists vars commands,
    LocalVariables st = inl vars /\ extractCommands vars = Ok commands
    /\ ((commands = [] /\ t' = t)
        \/ (commands <> [] /\ t' = appendEvent t (clientEvent {| Commands := commands |}))).
Proof.
  unfold onReplayCommands. intros H.
  apply bind_Ok in H as (vars & Hv & H).
  apply bind_Ok in H as (cs & Hc & H).
  unfold loadVars in Hv. destruct (LocalVariables st) as [vs|]; [|discriminate].
  exists vars, cs. inversion Hv; subst. repeat split; auto.
  destruct cs as [|c cs].
  - left. change (Ok t = Ok t') in H. split; [reflexivity | congruence].
  - right. split; [discriminate|].
    destruct (0 <? Z.of_nat (length (c :: cs)))%Z eqn:E; [congruence|].
    apply Z.ltb_ge in E. cbn [length] in E. lia.
Qed.

Lemma populateCoroutineName_Ok t st th t' :
  populateCoroutineName t st th = Ok t' ->
  exists vars found,
    FunctionArguments st = inl vars /\ crtName vars = Ok found
    /\ t' = match found with
            | Some n => setCoroutineName t (api.GoroutineID th) n
            | None => t
            end.
Proof.
  unfold populateCoroutineName. intros H.
  apply bind_Ok in H as (vars & Hv & H).
  apply bind_Ok in H as (found & Hf & H).
  unfold loadVars in Hv. destruct (FunctionArguments st) as [vs|]; [|discriminate].
  exists vars, found. inversion Hv; subst. repeat split; auto.
  destruct found; congruence.
Qed.

End HandlerFacts.

(** ** The stepping loop of trace.go *)

Lemma hitBreakpoint_Ok (t t1 : trace breakpoint) (st : Stop) (th : api.Thread) :
  api.CurrentThread (state st) = Some th ->
  hitBreakpoint t st th = Ok t1 ->
  breakpoints t1 = breakpoints t
  /\ effects t1 = effects t
  /\ sourceCache t1 = sourceCache t
  /\ coroutineNames t1 = namesAfter (breakpoints t) st (coroutineNames t)
  /\ exists hnew,
      Events (result t1) = (Events (result t) ++ hnew)%list
      /\ (length hnew <= 1)%nat
      /\ Forall handlerEvent hnew.
Proof.
  intros Hth. unfold hitBreakpoint, namesAfter, namingObservation. rewrite Hth.
  destruct (api.BreakpointID th) as [id|].
  2:{ intros [= <-]. repeat split; auto. exists []. rewrite app_nil_r. auto. }
  destruct (breakpoints t !! id) as [[b [h|]]|]; [| |discriminate].
  2:{ intros [= <-]. repeat split; auto. exists []. rewrite app_nil_r. auto. }
  destruct h; cbn [runHandler].
  - intros H. apply onProcessEvent_Ok in H as (vars & ev & Hv & He & ->).
    repeat split; auto. exists [serverEvent ev]. repeat split; auto.
    constructor; [|constructor]. left. eauto.
  - intros H. apply onReplayCommands_Ok in H as (vars & cs & Hv & Hc & [[-> ->]|[Hne ->]]).
    + repeat split; auto. exists []. rewrite app_nil_r. auto.
    + repeat split; auto. exists [clientEvent {| Commands := cs |}]. repeat split; auto.
      constructor; [|constructor]. right. eauto.
  - intros H. apply populateCoroutineName_Ok in H as (vars & found & Hv & Hf & ->).
    rewrite Hv, Hf. destruct found as [n|]; cbn.
    + repeat split; auto. exists []. rewrite app_nil_r. auto.
    + repeat split; auto. exists []. rewrite app_nil_r. auto.
Qed.

(** A handler that fails makes no naming observation. *)
Lemma hitBreakpoint_fails_names (t : trace breakpoint) (st : Stop) (th : api.Thread) :
  api.CurrentThread (state st) = Some th ->
  (forall t1, hitBreakpoint t st th <> Ok t1) ->
  namesAfter (breakpoints t) st (coroutineNames t) = coroutineNames t.
Proof.
  intros Hth Hno. unfold namesAfter, namingObservation. rewrite Hth.
  destruct (api.BreakpointID th) as [id|] eqn:Hid; [|reflexivity].
  destruct (breakpoints t !! id) as [[b [h|]]|] eqn:Hb; try reflexivity.
  destruct h; try reflexivity.
  destruct (FunctionArguments st) as [vars|] eqn:Hv; [|reflexivity].
  destruct (crtName vars) as [[n|]| |] eqn:Hc; try reflexivity.
  exfalso. apply (Hno (setCoroutineName t (api.GoroutineID th) n)).
  unfold hitBreakpoint. rewrite Hid, Hb. cbn.
  unfold populateCoroutineName. rewrite Hv. cbn. rewrite Hc. reflexivity.
Qed.

(** One pass through the loop body: the registry stays, the names are
    those after the handler, and the events grow at the end by what the
    handler appends (at most one event) followed by the code step (at most
    one), which carries the name then on record for the current unit. *)
Lemma iteration_spec (env : Env) (t t' : trace breakpoint) (st : Stop)
    (th : api.Thread) (d : Decision) :
  api.CurrentThread (state st) = Some th ->
  iteration env t st th = (t', d) ->
  breakpoints t' = breakpoints t
  /\ coroutineNames t' = namesAfter (breakpoints t) st (coroutineNames t)
  /\ exists hnew cnew,
      Events (result t') = (Events (result t) ++ hnew ++ cnew)%list
      /\ (length hnew <= 1)%nat
      /\ Forall handlerEvent hnew
      /\ (cnew = []
          \/ cnew = [codeEvent
                       {| Package := CurrentPackage st;
                          File := api.File th;
                          Line := api.Line th;
                          Coroutine :=
                            default "" (coroutineNames t' !! api.GoroutineID th) |}]).
Proof.
  intros Hth. unfold iteration.
  destruct (hitBreakpoint t st th) as [t1|e|w] eqn:Hh.
  - destruct (hitBreakpoint_Ok _ _ _ _ Hth Hh) as (Hb & He & Hs & Hn & hnew & Hev & Hl & Hf).
    set (t2 := if api.NextInProgress (state st) then logEffect t1 CancelNextCall else t1).
    assert (H2 : breakpoints t2 = breakpoints t1 /\ coroutineNames t2 = coroutineNames t1
                 /\ result t2 = result t1).
    { unfold t2. destruct (api.NextInProgress (state st)); cbn; auto. }
    destruct H2 as (H2b & H2n & H2r).
    assert (Hnone : breakpoints t2 = breakpoints t
                    /\ coroutineNames t2 = namesAfter (breakpoints t) st (coroutineNames t)
                    /\ exists hnew cnew : list Event,
                        Events (result t2) = (Events (result t) ++ hnew ++ cnew)%list
                        /\ (length hnew <= 1)%nat /\ Forall handlerEvent hnew
                        /\ (cnew = []
                            \/ cnew = [codeEvent
                                 {| Package := CurrentPackage st; File := api.File th;
                                    Line := api.Line th;
                                    Coroutine :=
                                      default "" (coroutineNames t2 !! api.GoroutineID th) |}])).
    { repeat split; try congruence.
      exists hnew, []. rewrite app_nil_r, H2r. auto. }
    destruct (if api.NextInProgress (state st) then CancelNext st else None).
    { intros [= <- <-]. exact Hnone. }
    destruct (goStdOrTemporal env th).
    { destruct (strings.HasPrefix (api.FunctionName th) "runtime.goexit");
        intros [= <- <-]; exact Hnone. }
    destruct (negb (String.eqb (api.File th) "") && negb false); intros [= <- <-].
    + cbn. repeat split; try congruence.
      exists hnew, [codeStep t2 st th]. rewrite H2r, Hev, <- app_assoc.
      repeat split; auto.
    + exact Hnone.
  - intros [= <- <-]. split; [reflexivity|]. split.
    + symmetry. apply (hitBreakpoint_fails_names t st th); [assumption|]. congruence.
    + exists [], []. rewrite !app_nil_r. auto.
  - intros [= <- <-]. split; [reflexivity|]. split.
    + symmetry. apply (hitBreakpoint_fails_names t st th); [assumption|]. congruence.
    + exists [], []. rewrite !app_nil_r. auto.
Qed.

Lemma iteration_traced (env : Env) (t t' : trace breakpoint) (st : Stop)
    (th : api.Thread) (d : Decision) :
  api.CurrentThread (state st) = Some th ->
  iteration env t st th = (t', d) ->
  exists new,
    Events (result t') = (Events (result t) ++ new)%list
    /\ (length new <= 2)%nat /\ Forall tracedEvent new.
Proof.
  intros Hth Hit.
  destruct (iteration_spec _ _ _ _ _ _ Hth Hit) as (_ & _ & hnew & cnew & Hev & Hl & Hf & Hc).
  exists (hnew ++ cnew)%list. split; [assumption|]. split.
  - rewrite length_app. destruct Hc as [-> | ->]; cbn; lia.
  - apply Forall_app. split.
    + eapply Forall_impl; [exact Hf|]. intros e He. now left.
    + destruct Hc as [-> | ->]; [constructor|].
      constructor; [|constructor]. right. eauto.
Qed.

(** Wherever the loop arrives, the registry is the one it started with, the
    names are those of the naming observations passed, and the events are
    those it started with followed by traced events. *)
Lemma arrive_spec (env : Env) (n : nat) :
  forall rest t0 st0 passed rest' t st,
    arrive env n rest t0 st0 = Some (passed, rest', t, st) ->
    breakpoints t = breakpoints t0
    /\ coroutineNames t = recordNames (breakpoints t0) passed (coroutineNames t0)
    /\ exists new,
        Events (result t) = (Events (result t0) ++ new)%list
        /\ Forall tracedEvent new.
Proof.
  induction n as [|n IH]; intros rest t0 st0 passed rest' t st H.
  - cbn in H. injection H as <- <- <- <-. repeat split; auto.
    exists []. rewrite app_nil_r. auto.
  - cbn [arrive] in H.
    destruct (api.Exited (state st0)); [discriminate|].
    destruct (api.CurrentThread (state st0)) as [th|] eqn:Hth; [|discriminate].
    destruct (iteration env t0 st0 th) as [t1 d] eqn:Hit.
    destruct d as [c ctx| |]; try discriminate.
    destruct rest as [|[st1|e] rest1]; try discriminate.
    destruct (arrive env n rest1 (logEffect t1 (Command c)) st1)
      as [[[[p r] t2] st2]|] eqn:Ha; [|discriminate].
    injection H as <- <- <- <-.
    destruct (IH _ _ _ _ _ _ _ Ha) as (Hb & Hn & new2 & Hev2 & Hf2).
    destruct (iteration_spec _ _ _ _ _ _ Hth Hit) as (Hb1 & Hn1 & _).
    destruct (iteration_traced _ _ _ _ _ _ Hth Hit) as (new1 & Hev1 & _ & Hf1).
    cbn in Hb, Hn, Hev2. repeat split.
    + congruence.
    + rewrite Hn, Hb1, Hn1. reflexivity.
    + exists (new1 ++ new2)%list. split.
      * rewrite Hev2, Hev1, <- app_assoc. reflexivity.
      * apply Forall_app. auto.
Qed.

(** [arrive] follows the loop: the run from where the loop has arrived is
    the run from where it started. *)
Lemma arrive_loop (env : Env) (n : nat) :
  forall rest t0 st0 passed rest' t st,
    arrive env n rest t0 st0 = Some (passed, rest', t, st) ->
    loop env rest t0 st0 = loop env rest' t st.
Proof.
  induction n as [|n IH]; intros rest t0 st0 passed rest' t st H.
  - cbn in H. injection H as <- <- <- <-. reflexivity.
  - cbn [arrive] in H.
    destruct (api.Exited (state st0)) eqn:Hex; [discriminate|].
    destruct (api.CurrentThread (state st0)) as [th|] eqn:Hth; [|discriminate].
    destruct (iteration env t0 st0 th) as [t1 d] eqn:Hit.
    destruct d as [c ctx| |]; try discriminate.
    destruct rest as [|[st1|e] rest1]; try discriminate.
    destruct (arrive env n rest1 (logEffect t1 (Command c)) st1)
      as [[[[p r] t2] st2]|] eqn:Ha; [|discriminate].
    injection H as <- <- <- <-.
    rewrite <- (IH _ _ _ _ _ _ _ Ha).
    destruct rest1; cbn [loop]; rewrite Hex, Hth, Hit; reflexivity.
Qed.

(** The events of a whole run of the loop. *)
Lemma loop_events (env : Env) :
  forall rest t st t' s,
    loop env rest t st = (t', s) ->
    exists new,
      Events (result t') = (Events (result t) ++ new)%list
      /\ Forall tracedEvent new.
Proof.
  induction rest as [|r rest IH]; intros t st t' s H.
  - cbn [loop] in H.
    destruct (api.Exited (state st)).
    { injection H as <- <-. exists []. rewrite app_nil_r. auto. }
    destruct (api.CurrentThread (state st)) as [th|] eqn:Hth.
    2:{ injection H as <- <-. exists []. rewrite app_nil_r. auto. }
    destruct (iteration env t st th) as [t1 d] eqn:Hit.
    destruct (iteration_traced _ _ _ _ _ _ Hth Hit) as (new & Hev & _ & Hf).
    destruct d; injection H as <- <-; exists new; auto.
  - cbn [loop] in H.
    destruct (api.Exited (state st)).
    { injection H as <- <-. exists []. rewrite app_nil_r. auto. }
    destruct (api.CurrentThread (state st)) as [th|] eqn:Hth.
    2:{ injection H as <- <-. exists []. rewrite app_nil_r. auto. }
    destruct (iteration env t st th) as [t1 d] eqn:Hit.
    destruct (iteration_traced _ _ _ _ _ _ Hth Hit) as (new & Hev & _ & Hf).
    destruct d as [c ctx| |].
    + destruct r as [st1|e].
      * apply IH in H as (new2 & Hev2 & Hf2). cbn in Hev2.
        exists (new ++ new2)%list. split.
        -- rewrite Hev2, Hev, <- app_assoc. reflexivity.
        -- apply Forall_app. auto.
      * injection H as <- <-. exists new. auto.
    + injection H as <- <-. exists new. auto.
    + injection H as <- <-. exists new. auto.
Qed.

(** ** Setting up: the session starts with no event and no name *)

Lemma register_same env t file line fn h :
  sameRecord t (fst (register env t file line fn h)).
Proof.
  unfold register, sameRecord. destruct (createBreakpoint env file line fn); cbn; auto.
Qed.

Lemma addFileLineBreakpoint_same env t fileRegex codeToMatch h :
  sameRecord t (fst (addFileLineBreakpoint env t fileRegex codeToMatch h)).
Proof.
  unfold addFileLineBreakpoint.
  destruct (regexpCompile env fileRegex) as [re|]; [|split; reflexivity].
  destruct (findFile re fileRegex (Sources env) "") as [file|]; [|split; reflexivity].
  destruct (String.eqb file ""); [split; reflexivity|].
  destruct (String.eqb (default "" (sourceCache t !! file)) "").
  - destruct (readFile env file) as [b|]; [|split; reflexivity].
    destruct (findLine file (strings.ReplaceAll b CRLF LF) codeToMatch) as [line|].
    + destruct (register_same env (setSource t file (strings.ReplaceAll b CRLF LF))
                  file line "" h) as [H1 H2].
      split; [rewrite H1 | rewrite H2]; reflexivity.
    + split; reflexivity.
  - destruct (findLine file (default "" (sourceCache t !! file)) codeToMatch) as [line|].
    + apply register_same.
    + split; reflexivity.
Qed.

Lemma andThen_same (t0 : trace breakpoint) r f :
  sameRecord t0 (fst r) ->
  (forall t, sameRecord t (fst (f t))) ->
  sameRecord t0 (fst (andThen r f)).
Proof.
  destruct r as [t [e|]]; cbn; intros [H1 H2] Hf; [split; assumption|].
  destruct (Hf t) as [H3 H4]. split; congruence.
Qed.

Lemma newTrace_fresh env tr t err :
  newTrace env tr = (t, err) ->
  Events (result t) = [] /\ coroutineNames t = ∅.
Proof.
  unfold newTrace. destruct (debuggerNew env).
  { intros [= <- <-]. split; reflexivity. }
  set (t0 := logEffect emptyTrace DebuggerNew).
  match goal with
  | |- match ?r with _ => _ end = _ -> _ =>
      assert (Hs : sameRecord t0 (fst r)); [|destruct r as [t' [e|]]]
  end.
  { repeat (apply andThen_same; [|intros; apply addFileLineBreakpoint_same]).
    apply register_same. }
  - intros [= <- <-]. destruct Hs as [H1 H2]. cbn in *. rewrite H1, H2. split; reflexivity.
  - intros [= <- <-]. destruct Hs as [H1 H2]. cbn in *. rewrite H1, H2. split; reflexivity.
Qed.

Lemma run_events env t t' s :
  run env t = (t', s) ->
  exists new,
    Events (result t') = (Events (result t) ++ new)%list /\ Forall tracedEvent new.
Proof.
  unfold run. destruct (script env) as [|[st|e] rest].
  - intros [= <- <-]. exists []. rewrite app_nil_r. auto.
  - intros H. apply loop_events in H. exact H.
  - intros [= <- <-]. exists []. rewrite app_nil_r. auto.
Qed.

Lemma traced_batch (e : Event) (c : EventClient) :
  tracedEvent e -> Client e = Some c -> Commands c <> [].
Proof.
  intros [[(ev & ->) | (cs & Hne & ->)] | (co & ->)]; cbn; intros [= <-]; assumption.
Qed.

(** ** The command handler *)

(** C9.  At a hit of the command marker, when the handler returns, a
    command batch has been appended if and only if the command list read
    off the locals is not empty, and it holds that list; so every command
    batch among the events of a run, and of any result [Trace] returns,
    holds a command. *)
Theorem command_batch_iff_nonempty :
  (forall (t t' : trace breakpoint) (st : Stop),
      onReplayCommands t st = Ok t' ->
      exists vars commands,
        LocalVariables st = inl vars
        /\ extractCommands vars = Ok commands
        /\ (commands <> [] ->
            Events (result t')
            = (Events (result t) ++ [clientEvent {| Commands := commands |}])%list)
        /\ (commands = [] -> Events (result t') = Events (result t)))
  /\ (forall (env : Env) (t t' : trace breakpoint) (s : Status),
        batchesNonEmpty (Events (result t)) ->
        run env t = (t', s) ->
        batchesNonEmpty (Events (result t')))
  /\ (forall (env : Env) (tr : Tracer) (r : Result),
        returnedResult (Trace env tr) = Some r ->
        batchesNonEmpty (Events r)).
Proof.
  assert (Hrun : forall env t t' s,
             batchesNonEmpty (Events (result t)) ->
             run env t = (t', s) -> batchesNonEmpty (Events (result t'))).
  { intros env t t' s Hb Hr. apply run_events in Hr as (new & -> & Hf).
    apply Forall_app. split; [assumption|].
    eapply Forall_impl; [exact Hf|]. intros e He c. now apply traced_batch. }
  split; [|split].
  - intros t t' st H.
    apply onReplayCommands_Ok in H as (vars & cs & Hv & Hc & Hcase).
    exists vars, cs. repeat split; auto.
    + intros Hne. destruct Hcase as [[-> _]|[_ ->]]; [congruence|reflexivity].
    + intros ->. destruct Hcase as [[_ ->]|[Hne _]]; [reflexivity|congruence].
  - exact Hrun.
  - intros env tr r. unfold Trace.
    destruct (mkdirTemp env); [discriminate|].
    destruct (absDir env); [discriminate|].
    destruct (buildReplayMainCode env tr); [discriminate|].
    destruct (writeFile env); [discriminate|].
    destruct (goBuild env); [discriminate|].
    destruct (newTrace env tr) as [t [e|]] eqn:Hn; [discriminate|].
    destruct (run env t) as [t' [err|w|]] eqn:Hr; cbn; try discriminate.
    intros [= <-]. apply (Hrun env t t' (Returned err)); [|assumption].
    apply newTrace_fresh in Hn as [-> _]. constructor.
Qed.

Lemma command_batch_iff_nonempty_witness :
  batchesNonEmpty
    (Events (result (fst (run Sample.env Sample.session)))).
Proof.
  destruct command_batch_iff_nonempty as (_ & H & _).
  apply (H Sample.env Sample.session _ (snd (run Sample.env Sample.session))).
  - vm_compute. constructor.
  - destruct (run Sample.env Sample.session). reflexivity.
Defined.

(** ** Tracer.Trace and the exit of the process *)

Lemma arrive_add (env : Env) (m k : nat) :
  forall rest t st,
    arrive env (m + k) rest t st
    = match arrive env m rest t st with
      | Some (p, r, t', st') =>
          match arrive env k r t' st' with
          | Some (p', r', t'', st'') => Some ((p ++ p')%list, r', t'', st'')
          | None => None
          end
      | None => None
      end.
Proof.
  induction m as [|m IH]; intros rest t st.
  - cbn. destruct (arrive env k rest t st) as [[[[p r] t'] st']|]; reflexivity.
  - cbn [Nat.add arrive].
    destruct (api.Exited (state st)); [reflexivity|].
    destruct (api.CurrentThread (state st)) as [th|]; [|reflexivity].
    destruct (iteration env t st th) as [t1 [c ctx| |]]; try reflexivity.
    destruct rest as [|[st1|e] rest1]; try reflexivity.
    rewrite IH.
    destruct (arrive env m rest1 (logEffect t1 (Command c)) st1)
      as [[[[p r] t2] st2]|]; [|reflexivity].
    destruct (arrive env k r t2 st2) as [[[[p' r'] t3] st3]|]; reflexivity.
Qed.

(** The events on record at a point of a run are still there, in the same
    order and at the front, at every later point. *)
Lemma arrive_prefix (env : Env) (m n : nat) rest t0 st0 pm rm tm sm pn rn tn sn :
  (m <= n)%nat ->
  arrive env m rest t0 st0 = Some (pm, rm, tm, sm) ->
  arrive env n rest t0 st0 = Some (pn, rn, tn, sn) ->
  exists later,
    Events (result tn) = (Events (result tm) ++ later)%list
    /\ Forall tracedEvent later.
Proof.
  intros Hle Hm Hn.
  replace n with (m + (n - m))%nat in Hn by lia.
  rewrite arrive_add, Hm in Hn.
  destruct (arrive env (n - m) rm tm sm) as [[[[p' r'] t''] st'']|] eqn:Hk; [|discriminate].
  injection Hn as <- <- <- <-.
  destruct (arrive_spec _ _ _ _ _ _ _ _ _ Hk) as (_ & _ & H). exact H.
Qed.

Lemma loop_exited env rest t st :
  api.Exited (state st) = true ->
  loop env rest t st = (t, Returned (exitError (state st))).
Proof. intros H. destruct rest; cbn [loop]; rewrite H; reflexivity. Qed.

(** C6.  When the process exits with a status other than zero, [run]
    reports the exit status as an error and [Trace] returns, together
    with that error, the result accumulated up to the exit: it is not nil,
    and every event on record at any earlier point of the run is in it. *)
Theorem exit_status_keeps_result
    (env : Env) (tr : Tracer) (t0 : trace breakpoint) (st0 : Stop)
    (rest : list Response) (n : nat) (passed : list Stop) (rest' : list Response)
    (t : trace breakpoint) (st : Stop) :
  mkdirTemp env = None ->
  absDir env = None ->
  buildReplayMainCode env tr = None ->
  writeFile env = None ->
  goBuild env = None ->
  newTrace env tr = (t0, None) ->
  script env = inl st0 :: rest ->
  arrive env n rest (logEffect t0 (Command api.Continue)) st0
  = Some (passed, rest', t, st) ->
  api.Exited (state st) = true ->
  api.ExitStatus (state st) <> 0 ->
  run env t0
  = (t, Returned (Some ("failed with exit status: "
                          ++ strconv.Itoa (api.ExitStatus (state st)))))
  /\ returnedResult (Trace env tr) = Some (result t)
  /\ status (Trace env tr)
     = Returned (Some ("failed with exit status: "
                         ++ strconv.Itoa (api.ExitStatus (state st))))
  /\ forall (m : nat) pm rm tm sm,
      (m <= n)%nat ->
      arrive env m rest (logEffect t0 (Command api.Continue)) st0 = Some (pm, rm, tm, sm) ->
      exists later, Events (result t) = (Events (result tm) ++ later)%list.
Proof.
  intros Hmk Habs Hbuild Hwr Hgo Hnew Hscript Harr Hex Hst.
  assert (Hrun : run env t0
                 = (t, Returned (Some ("failed with exit status: "
                                         ++ strconv.Itoa (api.ExitStatus (state st)))))).
  { unfold run. rewrite Hscript.
    rewrite (arrive_loop _ _ _ _ _ _ _ _ _ Harr), (loop_exited _ _ _ _ Hex).
    unfold exitError. rewrite Hex.
    destruct (Z.eqb_spec (api.ExitStatus (state st)) 0); [contradiction|reflexivity]. }
  split; [exact Hrun|].
  unfold Trace. rewrite Hmk, Habs, Hbuild, Hwr, Hgo, Hnew, Hrun. cbn.
  repeat split.
  intros m pm rm tm sm Hle Hm.
  destruct (arrive_prefix _ _ _ _ _ _ _ _ _ _ _ _ _ _ Hle Hm Harr) as (later & H & _).
  eauto.
Qed.

Lemma exit_status_keeps_result_witness :
  exists r : Result,
    returnedResult (Trace Sample.env Sample.tracer) = Some r
    /\ length (Events r) = 4%nat
    /\ status (Trace Sample.env Sample.tracer)
       = Returned (Some "failed with exit status: 2").
Proof.
  destruct (exit_status_keeps_result Sample.env Sample.tracer Sample.session
              Sample.atEvent (tl Sample.replay) 5
              (passedOf (sampleArrival 5)) (restOf (sampleArrival 5))
              (traceOf (sampleArrival 5)) (stopOf (sampleArrival 5)))
    as (_ & Hres & Hstatus & _).
  - vm_compute. reflexivity.
  - vm_compute. reflexivity.
  - vm_compute. reflexivity.
  - vm_compute. reflexivity.
  - vm_compute. reflexivity.
  - vm_compute. reflexivity.
  - vm_compute. reflexivity.
  - vm_compute. reflexivity.
  - vm_compute. reflexivity.
  - vm_compute. discriminate.
  - exists (result (traceOf (sampleArrival 5))).
    split; [exact Hres|]. split; [vm_compute; reflexivity|].
    rewrite Hstatus. vm_compute. reflexivity.
Defined.

(** ** The events of the result *)

Lemma iteration_code_step (env : Env) (t t1 : trace breakpoint) (st : Stop)
    (th : api.Thread) :
  hitBreakpoint t st th = Ok t1 ->
  (api.NextInProgress (state st) = true -> CancelNext st = None) ->
  goStdOrTemporal env th = false ->
  api.File th <> "" ->
  exists t',
    iteration env t st th = (t', Issue api.Step "failed stepping: ")
    /\ Events (result t') = (Events (result t1) ++ [codeStep t1 st th])%list.
Proof.
  intros Hh Hc Hg Hf. unfold iteration. rewrite Hh, Hg.
  destruct (String.eqb_spec (api.File th) ""); [contradiction|].
  destruct (api.NextInProgress (state st)).
  - rewrite (Hc eq_refl). cbn. eexists. split; reflexivity.
  - cbn. eexists. split; reflexivity.
Qed.

(** C8, as the code has it.  The events are only ever extended at the end:
    the event handler appends exactly one event, the command handler one
    batch or nothing, the naming handler nothing; one pass through the loop
    appends what its handler appends and then at most one code step, and
    exactly one at a stop in user code with a file; whatever is on record at
    one point of a run is the front of what is on record at any later
    point, unchanged and in the same order. *)
Theorem events_append_only :
  (forall (t t' : trace breakpoint) (st : Stop),
      onProcessEvent t st = Ok t' ->
      exists ev, Events (result t') = (Events (result t) ++ [serverEvent ev])%list)
  /\ (forall (t t' : trace breakpoint) (st : Stop),
      onReplayCommands t st = Ok t' ->
      Events (result t') = Events (result t)
      \/ exists cs,
          cs <> []
          /\ Events (result t')
             = (Events (result t) ++ [clientEvent {| Commands := cs |}])%list)
  /\ (forall (t t' : trace breakpoint) (st : Stop) (th : api.Thread),
      populateCoroutineName t st th = Ok t' ->
      Events (result t') = Events (result t))
  /\ (forall (env : Env) (t t' : trace breakpoint) (st : Stop) (th : api.Thread)
             (d : Decision),
      api.CurrentThread (state st) = Some th ->
      iteration env t st th = (t', d) ->
      exists hnew cnew,
        Events (result t') = (Events (result t) ++ hnew ++ cnew)%list
        /\ (length hnew <= 1)%nat
        /\ Forall handlerEvent hnew
        /\ (cnew = [] \/ exists c, cnew = [codeEvent c]))
  /\ (forall (env : Env) (t t1 : trace breakpoint) (st : Stop) (th : api.Thread),
      hitBreakpoint t st th = Ok t1 ->
      (api.NextInProgress (state st) = true -> CancelNext st = None) ->
      goStdOrTemporal env th = false ->
      api.File th <> "" ->
      exists t',
        iteration env t st th = (t', Issue api.Step "failed stepping: ")
        /\ Events (result t') = (Events (result t1) ++ [codeStep t1 st th])%list)
  /\ (forall (env : Env) (t t' : trace breakpoint) (s : Status),
      run env t = (t', s) ->
      exists new,
        Events (result t') = (Events (result t) ++ new)%list
        /\ Forall tracedEvent new)
  /\ (forall (env : Env) (m n : nat) rest t0 st0 pm rm tm sm pn rn tn sn,
      (m <= n)%nat ->
      arrive env m rest t0 st0 = Some (pm, rm, tm, sm) ->
      arrive env n rest t0 st0 = Some (pn, rn, tn, sn) ->
      exists later, Events (result tn) = (Events (result tm) ++ later)%list).
Proof.
  repeat apply conj.
  - intros t t' st H. apply onProcessEvent_Ok in H as (vars & ev & _ & _ & ->).
    exists ev. reflexivity.
  - intros t t' st H.
    apply onReplayCommands_Ok in H as (vars & cs & _ & _ & [[_ ->]|[Hne ->]]).
    + left. reflexivity.
    + right. exists cs. split; [assumption|reflexivity].
  - intros t t' st th H.
    apply populateCoroutineName_Ok in H as (vars & found & _ & _ & ->).
    destruct found; reflexivity.
  - intros env t t' st th d Hth Hit.
    destruct (iteration_spec _ _ _ _ _ _ Hth Hit) as (_ & _ & hnew & cnew & H1 & H2 & H3 & H4).
    exists hnew, cnew. repeat split; auto.
    destruct H4 as [-> | ->]; [left; reflexivity | right; eauto].
  - exact iteration_code_step.
  - exact run_events.
  - intros env m n rest t0 st0 pm rm tm sm pn rn tn sn Hle Hm Hn.
    destruct (arrive_prefix _ _ _ _ _ _ _ _ _ _ _ _ _ _ Hle Hm Hn) as (later & H & _).
    eauto.
Qed.

Lemma events_append_only_witness :
  exists new,
    Events (result (fst (run Sample.env Sample.session)))
    = (Events (result Sample.session) ++ new)%list
    /\ Forall tracedEvent new.
Proof.
  destruct events_append_only as (_ & _ & _ & _ & _ & H & _).
  apply (H Sample.env Sample.session _ (snd (run Sample.env Sample.session))).
  destruct (run Sample.env Sample.session). reflexivity.
Defined.

(** The naming handler is invoked and no event is appended: it is not so
    that each handler invocation appends exactly one event. *)
Lemma naming_appends_no_event :
  handler <$> (breakpoints Sample.session !! 16) = Some (Some PopulateCoroutineName)
  /\ hitBreakpoint Sample.session (Sample.atSpawn "worker")
       (Sample.thread Sample.workflowGo 6 Sample.spawned 8 (Some 16))
     = Ok (setCoroutineName Sample.session 8 "worker")
  /\ Events (result (setCoroutineName Sample.session 8 "worker"))
     = Events (result Sample.session)
  /\ ~ exists e,
        Events (result (setCoroutineName Sample.session 8 "worker"))
        = (Events (result Sample.session) ++ [e])%list.
Proof.
  split; [vm_compute; reflexivity|].
  split; [vm_compute; reflexivity|].
  split; [vm_compute; reflexivity|].
  intros [e H]. vm_compute in H. discriminate.
Qed.

(** ** The names of the concurrency units *)

Lemma recordNames_snoc bps stops st names :
  recordNames bps (stops ++ [st]) names = namesAfter bps st (recordNames bps stops names).
Proof. unfold recordNames. rewrite fold_left_app. reflexivity. Qed.

Lemma recordNames_cons bps stops st names :
  recordNames bps (st :: stops) names = recordNames bps stops (namesAfter bps st names).
Proof. reflexivity. Qed.

Lemma recordNames_app bps l1 l2 names :
  recordNames bps (l1 ++ l2) names = recordNames bps l2 (recordNames bps l1 names).
Proof. unfold recordNames. apply fold_left_app. Qed.

Lemma recordNames_quiet bps (u : Z) stops :
  forall names : gmap Z string,
    Forall (quietFor bps u) stops ->
    recordNames bps stops names !! u = names !! u.
Proof.
  induction stops as [|st stops IH]; intros names Hq.
  - reflexivity.
  - rewrite recordNames_cons. inversion Hq as [|? ? Hst Hrest]; subst.
    rewrite (IH _ Hrest). unfold namesAfter.
    destruct (namingObservation bps st) as [[u' n]|] eqn:Ho; [|reflexivity].
    apply lookup_insert_ne. intros ->. exact (Hst n Ho).
Qed.

Lemma recordNames_last bps (u : Z) (n : string) before sj after names :
  namingObservation bps sj = Some (u, n) ->
  Forall (quietFor bps u) after ->
  recordNames bps (before ++ sj :: after) names !! u = Some n.
Proof.
  intros Ho Hq. rewrite recordNames_app, recordNames_cons.
  rewrite (recordNames_quiet _ _ _ _ Hq). unfold namesAfter. rewrite Ho.
  apply lookup_insert_eq.
Qed.

(** C7.  At every point of a run, a code step appended for the current
    unit carries the name on record for that unit: the name of the latest
    naming observation made for it at this or an earlier stop.  So once the
    naming handler has recorded [N] for a unit, every code step appended
    for the unit from then on carries [N] (no other name being recorded for
    the unit in between), whatever breakpoint or step led to the stop; and a
    code step for a unit with no naming observation so far carries the
    empty name. *)
Theorem code_step_carries_recorded_name
    (env : Env) (n : nat) (rest : list Response) (t0 : trace breakpoint) (st0 : Stop)
    (passed : list Stop) (rest' : list Response) (t : trace breakpoint) (st : Stop)
    (th : api.Thread) (t' : trace breakpoint) (d : Decision)
    (new : list Event) (e : Event) (c : EventCode) :
  arrive env n rest t0 st0 = Some (passed, rest', t, st) ->
  api.CurrentThread (state st) = Some th ->
  iteration env t st th = (t', d) ->
  Events (result t') = (Events (result t) ++ new)%list ->
  In e new ->
  Code e = Some c ->
  Coroutine c
  = default "" (recordNames (breakpoints t0) (passed ++ [st]) (coroutineNames t0)
                  !! api.GoroutineID th)
  /\ (forall before sj after N,
        (passed ++ [st])%list = (before ++ sj :: after)%list ->
        namingObservation (breakpoints t0) sj = Some (api.GoroutineID th, N) ->
        Forall (quietFor (breakpoints t0) (api.GoroutineID th)) after ->
        Coroutine c = N)
  /\ (coroutineNames t0 !! api.GoroutineID th = None ->
      Forall (quietFor (breakpoints t0) (api.GoroutineID th)) (passed ++ [st]) ->
      Coroutine c = "").
Proof.
  intros Harr Hth Hit Hev Hin Hcode.
  destruct (arrive_spec _ _ _ _ _ _ _ _ _ Harr) as (Hb & Hn & _).
  destruct (iteration_spec _ _ _ _ _ _ Hth Hit) as (_ & Hn' & hnew & cnew & Hev' & _ & Hf & Hc).
  rewrite Hev' in Hev. apply app_inv_head in Hev. subst new.
  assert (Hmain : Coroutine c
                  = default "" (recordNames (breakpoints t0) (passed ++ [st])
                                  (coroutineNames t0) !! api.GoroutineID th)).
  { rewrite recordNames_snoc, <- Hn, <- Hb, <- Hn'.
    apply in_app_or in Hin as [Hin|Hin].
    - rewrite Forall_forall in Hf. apply list_elem_of_In in Hin.
      destruct (Hf _ Hin) as [(ev & ->) | (cs & _ & ->)]; discriminate.
    - destruct Hc as [-> | ->]; [destruct Hin|].
      destruct Hin as [<- | []]. cbn in Hcode. injection Hcode as <-. reflexivity. }
  split; [exact Hmain|]. split.
  - intros before sj after N Hsplit Ho Hq.
    rewrite Hmain, Hsplit, (recordNames_last _ _ _ _ _ _ _ Ho Hq). reflexivity.
  - intros Hnone Hq.
    rewrite Hmain, (recordNames_quiet _ _ _ _ Hq), Hnone. reflexivity.
Qed.

Lemma code_step_carries_recorded_name_witness :
  exists c : EventCode,
    Events (result (fst (iteration Sample.env (traceOf (sampleArrival 3))
                           Sample.inCoroutine coroutineThread)))
    = (Events (result (traceOf (sampleArrival 3))) ++ [codeEvent c])%list
    /\ Coroutine c = "worker".
Proof.
  exists workerStep.
  split; [vm_compute; reflexivity|].
  destruct (code_step_carries_recorded_name Sample.env 3 (tl Sample.replay)
              (logEffect Sample.session (Command api.Continue)) Sample.atEvent
              (passedOf (sampleArrival 3)) (restOf (sampleArrival 3))
              (traceOf (sampleArrival 3)) Sample.inCoroutine coroutineThread
              (fst (iteration Sample.env (traceOf (sampleArrival 3))
                      Sample.inCoroutine coroutineThread))
              (snd (iteration Sample.env (traceOf (sampleArrival 3))
                      Sample.inCoroutine coroutineThread))
              [codeEvent workerStep] (codeEvent workerStep) workerStep)
    as (_ & Hnamed & _).
  - vm_compute. reflexivity.
  - vm_compute. reflexivity.
  - apply surjective_pairing.
  - vm_compute. reflexivity.
  - left. reflexivity.
  - reflexivity.
  - apply (Hnamed [Sample.atEvent; Sample.atEntry] (Sample.atSpawn "worker")
             [Sample.inCoroutine] "worker").
    + vm_compute. reflexivity.
    + vm_compute. reflexivity.
    + constructor; [|constructor]. intros N H. vm_compute in H. discriminate.
Defined.

(** ** Errors of the handlers *)

Lemma foldM_Err {A X : Type} (f : A -> X -> res A) (l : list X) :
  forall (a : A) (e : error),
    foldM f l a = Err e -> exists x a', In x l /\ f a' x = Err e.
Proof.
  induction l as [|x l IH]; intros a e H; [discriminate|].
  cbn in H. apply bind_Err in H as [H | (a' & Ha & H)].
  - exists x, a. split; [now left | assumption].
  - destruct (IH _ _ H) as (y & b & Hin & Hy). exists y, b. split; [now right | assumption].
Qed.

Lemma foldM_fixed {A X : Type} (f : A -> X -> res A) (l : list X) (a : A) :
  (forall x, In x l -> f a x = Ok a) -> foldM f l a = Ok a.
Proof.
  induction l as [|x l IH]; intros H; [reflexivity|].
  cbn. rewrite (H x (or_introl eq_refl)). cbn. apply IH.
  intros y Hy. apply H. now right.
Qed.

Lemma onError_Err {A : Type} (m : res A) (f : error -> error) (e : error) :
  onError m f = Err e -> exists e0, m = Err e0 /\ e = f e0.
Proof. destruct m; cbn; intros H; try discriminate. injection H as <-. eauto. Qed.

Lemma eventChild_Err (event : EventServer) (child : api.Var) (e : error) :
  eventChild event child = Err e ->
  (api.Name child = "EventId" /\ exists e0, strconv.ParseInt (api.Value child) = Err e0)
  \/ (api.Name child = "EventType"
      /\ exists e0, intInTrailingParens (api.Value child) = Err e0).
Proof.
  unfold eventChild.
  destruct (String.eqb_spec (api.Name child) "EventId") as [Hn|_].
  - intros H. left. split; [assumption|].
    apply bind_Err in H as [H | (a & _ & H)]; [|discriminate].
    apply onError_Err in H as (e0 & H & _). eauto.
  - destruct (String.eqb_spec (api.Name child) "EventType") as [Hn|_]; [|discriminate].
    intros H. right. split; [assumption|].
    apply bind_Err in H as [H | (a & _ & H)]; [|discriminate].
    apply onError_Err in H as (e0 & H & _). eauto.
Qed.

Lemma extractEvent_missing (vars : list api.Var) :
  (forall arg, In arg vars -> api.Name arg = "event" -> lacksEventFields arg) ->
  extractEvent vars = Ok zeroEvent.
Proof.
  intros H. unfold extractEvent. apply foldM_fixed. intros arg Hin.
  unfold eventArg. destruct (String.eqb_spec (api.Name arg) "event") as [Hn|_]; [|reflexivity].
  destruct (H arg Hin Hn) as (c0 & -> & Hc). cbn. apply foldM_fixed.
  intros child Hch. destruct (Hc child Hch) as [H1 H2]. unfold eventChild.
  destruct (String.eqb_spec (api.Name child) "EventId"); [contradiction|].
  destruct (String.eqb_spec (api.Name child) "EventType"); [contradiction|].
  reflexivity.
Qed.

Lemma crtName_missing (vars : list api.Var) :
  (forall arg, In arg vars -> api.Name arg = "crt" -> lacksName arg) ->
  crtName vars = Ok None.
Proof.
  induction vars as [|arg vars IH]; intros H; [reflexivity|].
  cbn [crtName]. destruct (String.eqb_spec (api.Name arg) "crt") as [Hn|_].
  - destruct (H arg (or_introl eq_refl) Hn) as (c0 & Hc0 & Hf).
    rewrite Hc0. cbn [bind]. rewrite Hf.
    apply IH. intros a Ha. apply H. now right.
  - apply IH. intros a Ha. apply H. now right.
Qed.

Lemma crtName_no_Err (vars : list api.Var) (e : error) : crtName vars <> Err e.
Proof.
  induction vars as [|arg vars IH]; [discriminate|].
  cbn [crtName]. destruct (String.eqb (api.Name arg) "crt"); [|assumption].
  unfold firstChild. destruct (api.Children arg) as [|c0 cs]; [discriminate|]. cbn.
  destruct (findName (api.Children c0)); [discriminate | assumption].
Qed.

(** C5, as the code has it.  An error of a handler ends the run at once,
    with the trace as it stood and no further command.  The event handler
    returns an error only when the arguments cannot be loaded or when an
    [EventId] or [EventType] that is there does not parse; the naming
    handler only when the arguments cannot be loaded.  When there is no
    [event] argument, or its struct has neither field, the event handler
    returns no error and appends an event with the zero ID and type; when
    there is no [crt] argument, or its struct has no [name], the naming
    handler returns no error and leaves the trace as it is. *)
Theorem handler_errors :
  (forall (env : Env) (rest : list Response) (t : trace breakpoint) (st : Stop)
          (th : api.Thread) (e : error),
      api.Exited (state st) = false ->
      api.CurrentThread (state st) = Some th ->
      hitBreakpoint t st th = Err e ->
      loop env rest t st = (t, Returned (Some e)))
  /\ (forall (t : trace breakpoint) (st : Stop) (e : error),
      onProcessEvent t st = Err e ->
      (exists e0, FunctionArguments st = inr e0 /\ e = wrapf "failed loading vars: " e0)
      \/ (exists vars arg c0 child,
            FunctionArguments st = inl vars
            /\ In arg vars /\ api.Name arg = "event"
            /\ firstChild arg = Ok c0 /\ In child (api.Children c0)
            /\ ((api.Name child = "EventId"
                 /\ exists e0, strconv.ParseInt (api.Value child) = Err e0)
                \/ (api.Name child = "EventType"
                    /\ exists e0, intInTrailingParens (api.Value child) = Err e0))))
  /\ (forall (t : trace breakpoint) (st : Stop) (th : api.Thread) (e : error),
      populateCoroutineName t st th = Err e ->
      exists e0, FunctionArguments st = inr e0 /\ e = wrapf "failed loading vars: " e0)
  /\ (forall (t : trace breakpoint) (st : Stop) (vars : list api.Var),
      FunctionArguments st = inl vars ->
      (forall arg, In arg vars -> api.Name arg = "event" -> lacksEventFields arg) ->
      onProcessEvent t st = Ok (appendEvent t (serverEvent zeroEvent)))
  /\ (forall (t : trace breakpoint) (st : Stop) (th : api.Thread) (vars : list api.Var),
      FunctionArguments st = inl vars ->
      (forall arg, In arg vars -> api.Name arg = "crt" -> lacksName arg) ->
      populateCoroutineName t st th = Ok t).
Proof.
  repeat apply conj.
  - intros env rest t st th e Hex Hth Hh.
    destruct rest; cbn [loop]; rewrite Hex, Hth; unfold iteration; rewrite Hh; reflexivity.
  - intros t st e H. unfold onProcessEvent in H.
    apply bind_Err in H as [H | (vars & Hv & H)].
    + left. unfold loadVars in H. destruct (FunctionArguments st) as [|e0]; [discriminate|].
      injection H as <-. eauto.
    + right. unfold loadVars in Hv.
      destruct (FunctionArguments st) as [vs|]; [|discriminate]. injection Hv as ->.
      apply bind_Err in H as [H | (ev & _ & H)]; [|discriminate].
      apply foldM_Err in H as (arg & ev & Hin & H). unfold eventArg in H.
      destruct (String.eqb_spec (api.Name arg) "event") as [Hn|_]; [|discriminate].
      apply bind_Err in H as [H | (c0 & Hc0 & H)].
      { unfold firstChild in H. destruct (api.Children arg); discriminate. }
      apply foldM_Err in H as (child & ev' & Hch & H).
      apply eventChild_Err in H.
      exists vars, arg, c0, child. auto 10.
  - intros t st th e H. unfold populateCoroutineName in H.
    apply bind_Err in H as [H | (vars & Hv & H)].
    + unfold loadVars in H. destruct (FunctionArguments st) as [|e0]; [discriminate|].
      injection H as <-. eauto.
    + apply bind_Err in H as [H | (found & _ & H)].
      * exfalso. exact (crtName_no_Err _ _ H).
      * destruct found; discriminate.
  - intros t st vars Hv H. unfold onProcessEvent. rewrite Hv. cbn.
    rewrite (extractEvent_missing _ H). reflexivity.
  - intros t st th vars Hv H. unfold populateCoroutineName. rewrite Hv. cbn.
    rewrite (crtName_missing _ H). reflexivity.
Qed.

Lemma handler_errors_witness :
  onProcessEvent Sample.session
    (Sample.stopAt eventThread false [api.mkVar "ctx" "" []] [])
  = Ok (appendEvent Sample.session (serverEvent zeroEvent)).
Proof.
  destruct handler_errors as (_ & _ & _ & H & _).
  apply (H Sample.session _ [api.mkVar "ctx" "" []]); [reflexivity|].
  intros arg [<- | []] Hn. vm_compute in Hn. discriminate.
Defined.

(** The event marker is hit and the frame holds no [event] argument: the
    handler returns no error, an event with the zero ID and type is put on
    record, and the loop goes on with a step-out. *)
Lemma missing_event_is_no_error :
  FunctionArguments eventMissing = inl []
  /\ hitBreakpoint Sample.session eventMissing eventThread
     = Ok (appendEvent Sample.session (serverEvent zeroEvent))
  /\ iteration Sample.env Sample.session eventMissing eventThread
     = (appendEvent Sample.session (serverEvent zeroEvent),
        Issue api.StepOut "failed stepping out: ")
  /\ Events (result (appendEvent Sample.session (serverEvent zeroEvent)))
     = [serverEvent zeroEvent].
Proof.
  split; [reflexivity|].
  split; [vm_compute; reflexivity|].
  split; vm_compute; reflexivity.
Qed.

(** ** A breakpoint hit while a step is in flight *)

Lemma effects_cancel (B : Type) (t : trace B) (b : bool) :
  effects (if b then logEffect t CancelNextCall else t)
  = (effects t ++ (if b then [CancelNextCall] else []))%list.
Proof. destruct b; cbn; [reflexivity | now rewrite app_nil_r]. Qed.

(** In trace.go every stop with a step in flight cancels the step. *)
Lemma next_cancelled (env : Env) (t t1 : trace breakpoint) (st : Stop) (th : api.Thread) :
  api.NextInProgress (state st) = true ->
  hitBreakpoint t st th = Ok t1 ->
  exists t' d,
    iteration env t st th = (t', d)
    /\ effects t' = (effects t1 ++ [CancelNextCall])%list
    /\ (forall ctx, d <> Issue api.Continue ctx)
    /\ (forall e, CancelNext st = Some e -> d = Abort (wrapf "failed cancelling next: " e))
    /\ (CancelNext st = None -> exists c ctx, d = Issue c ctx).
Proof.
  intros Hn Hh. unfold iteration. rewrite Hh, Hn.
  destruct (CancelNext st) as [e|].
  { eexists. eexists. split; [reflexivity|]. cbn. repeat split; try discriminate.
    intros e' [= <-]. reflexivity. }
  destruct (goStdOrTemporal env th).
  - destruct (strings.HasPrefix (api.FunctionName th) "runtime.goexit");
      eexists; eexists; (split; [reflexivity|]); cbn; repeat split; try discriminate; eauto.
  - destruct (negb (String.eqb (api.File th) "") && negb false);
      eexists; eexists; (split; [reflexivity|]); cbn; repeat split; try discriminate; eauto.
Qed.

(** C1, as the code has it.  In the revision whose breakpoints carry
    [forStepping]: at a stop with a step in flight, when no breakpoint was
    hit or the breakpoint hit is not for stepping, the loop gives
    [Continue] (without cancelling and without a code step) and goes round
    again with the answer; when the breakpoint is for stepping, it cancels
    the step and goes on to the ordinary treatment of the stop.  In
    trace.go a breakpoint has no such kind: at every stop with a step in
    flight the step is cancelled and the stop is treated as usual;
    [Continue] is never given there. *)
Theorem next_in_progress :
  (forall (env : Env) (t t1 : trace ForStepping.breakpoint) (st : Stop)
          (th : api.Thread) (bp : option ForStepping.breakpoint),
      api.NextInProgress (state st) = true ->
      ForStepping.hitBreakpoint t st th = Ok (t1, bp) ->
      (ForStepping.notForStepping bp = true ->
       ForStepping.iteration env t st th
       = (t1, Issue api.Continue "failed continuing while next in progress: ")
       /\ forall st' rest,
           ForStepping.goesOn (state st) = Some th ->
           ForStepping.loop env (inl st' :: rest) t st
           = ForStepping.loop env rest (logEffect t1 (Command api.Continue)) st')
      /\ (ForStepping.notForStepping bp = false ->
          exists t' d,
            ForStepping.iteration env t st th = (t', d)
            /\ effects t' = (effects t1 ++ [CancelNextCall])%list
            /\ (forall e, CancelNext st = Some e ->
                          d = Abort (wrapf "failed cancelling next: " e))
            /\ (CancelNext st = None -> d = Issue api.Step "failed stepping: ")))
  /\ (forall (env : Env) (t t1 : trace breakpoint) (st : Stop) (th : api.Thread),
      api.NextInProgress (state st) = true ->
      hitBreakpoint t st th = Ok t1 ->
      exists t' d,
        iteration env t st th = (t', d)
        /\ effects t' = (effects t1 ++ [CancelNextCall])%list
        /\ (forall ctx, d <> Issue api.Continue ctx)
        /\ (forall e, CancelNext st = Some e ->
                      d = Abort (wrapf "failed cancelling next: " e))
        /\ (CancelNext st = None -> exists c ctx, d = Issue c ctx)).
Proof.
  split; [|exact next_cancelled].
  intros env t t1 st th bp Hn Hh. split.
  - intros Hk.
    assert (Hit : ForStepping.iteration env t st th
                  = (t1, Issue api.Continue "failed continuing while next in progress: ")).
    { unfold ForStepping.iteration. rewrite Hh, Hn, Hk. reflexivity. }
    split; [exact Hit|].
    intros st' rest Hgo. cbn [ForStepping.loop]. rewrite Hgo, Hit. reflexivity.
  - intros Hk. unfold ForStepping.iteration. rewrite Hh, Hn, Hk. cbn [andb].
    destruct (CancelNext st) as [e|].
    { eexists. eexists. split; [reflexivity|]. cbn. repeat split; try discriminate.
      intros e' [= <-]. reflexivity. }
    destruct (negb (String.eqb (api.File th) "")
              && negb (ForStepping.goStdOrTemporal env th));
      eexists; eexists; (split; [reflexivity|]); cbn; repeat split; try discriminate; eauto.
Qed.

Lemma next_in_progress_witness :
  effects (fst (iteration Sample.env Sample.session eventWhileStepping eventThread))
  = (effects (appendEvent Sample.session (serverEvent {| ID := 3; Type_ := 6 |}))
       ++ [CancelNextCall])%list
  /\ exists c ctx,
      snd (iteration Sample.env Sample.session eventWhileStepping eventThread)
      = Issue c ctx.
Proof.
  destruct next_in_progress as [_ H].
  destruct (H Sample.env Sample.session
              (appendEvent Sample.session (serverEvent {| ID := 3; Type_ := 6 |}))
              eventWhileStepping eventThread)
    as (t' & d & Hit & Heff & _ & _ & Hd).
  - reflexivity.
  - vm_compute. reflexivity.
  - rewrite Hit. split; [exact Heff|]. apply Hd. reflexivity.
Defined.

(** In trace.go the event marker, which only observes, is hit while a step
    is in flight: the step is cancelled and the loop steps out; [Continue]
    is not given. *)
Lemma observation_cancels_next :
  api.NextInProgress (state eventWhileStepping) = true
  /\ handler <$> (breakpoints Sample.session !! 2) = Some (Some OnProcessEvent)
  /\ iteration Sample.env Sample.session eventWhileStepping eventThread
     = (logEffect (appendEvent Sample.session (serverEvent {| ID := 3; Type_ := 6 |}))
          CancelNextCall,
        Issue api.StepOut "failed stepping out: ")
  /\ effects (logEffect (appendEvent Sample.session
                           (serverEvent {| ID := 3; Type_ := 6 |})) CancelNextCall)
     = (effects Sample.session ++ [CancelNextCall])%list.
Proof.
  split; [reflexivity|].
  split; [vm_compute; reflexivity|].
  split; vm_compute; reflexivity.
Qed.

(** ** Excluded locations *)

(** X1.  At a location [goStdOrTemporal] excludes, no code step is appended
    and the loop steps out, or steps when the function is [runtime.goexit]. *)
Lemma implied_exclusions_step_out (env : Env) (t t1 : trace breakpoint) (st : Stop)
    (th : api.Thread) :
  hitBreakpoint t st th = Ok t1 ->
  (api.NextInProgress (state st) = true -> CancelNext st = None) ->
  goStdOrTemporal env th = true ->
  exists t',
    iteration env t st th
    = (t', Issue (if strings.HasPrefix (api.FunctionName th) "runtime.goexit"
                  then api.Step else api.StepOut) "failed stepping out: ")
    /\ result t' = result t1.
Proof.
  intros Hh Hc Hg. unfold iteration. rewrite Hh, Hg.
  destruct (api.NextInProgress (state st)).
  - rewrite (Hc eq_refl).
    destruct (strings.HasPrefix (api.FunctionName th) "runtime.goexit");
      eexists; split; reflexivity.
  - destruct (strings.HasPrefix (api.FunctionName th) "runtime.goexit");
      eexists; split; reflexivity.
Qed.

(** The patterns of the configuration play no part in a trace. *)
Lemma Trace_ignores_exclusions (env : Env) (tr : Tracer) (funcs files : list Regexp) :
  Trace env (withExcludes tr funcs files) = Trace env tr.
Proof. reflexivity. Qed.

(** C2, at a stop in a function the caller's [ExcludeFuncs] matches: the
    configuration is accepted with the pattern in it, the pattern matches
    the function of the stop, and yet the loop puts a code step for the
    stop on record and gives [Step], where the claim has no code step and
    [StepOut]; the code step is in the result [Trace] returns. *)
Theorem exclude_patterns_ignored :
  New cfgExcluding = inl tracerExcluding
  /\ ExcludeFuncs (config tracerExcluding) = [excludeCoroutine]
  /\ api.CurrentThread (state Sample.inCoroutine) = Some coroutineThread
  /\ MatchString excludeCoroutine (api.FunctionName coroutineThread) = true
  /\ iteration Sample.env (traceOf (sampleArrival 3)) Sample.inCoroutine coroutineThread
     = (appendEvent (traceOf (sampleArrival 3)) (codeEvent workerStep),
        Issue api.Step "failed stepping: ")
  /\ returnedResult (Trace Sample.env tracerExcluding) = Some {| Events := sampleEvents |}
  /\ In (codeEvent workerStep) sampleEvents.
Proof.
  split; [vm_compute; reflexivity|].
  split; [reflexivity|].
  split; [reflexivity|].
  split; [vm_compute; reflexivity|].
  split; [vm_compute; reflexivity|].
  split; [vm_compute; reflexivity|].
  right. right. left. reflexivity.
Qed.

(** ** The source locator *)

Lemma prefix_nil (s : string) : String.prefix "" s = true.
Proof. destruct s; reflexivity. Qed.

Lemma index_nat_head (sub : string) :
  forall s, strings.index_nat s sub = head (occurrences s sub).
Proof.
  induction s as [|c s IH].
  - cbn. destruct sub; reflexivity.
  - cbn [strings.index_nat occurrences].
    destruct (String.prefix sub (String c s)); [reflexivity|].
    rewrite IH. cbn [app]. destruct (occurrences s sub); reflexivity.
Qed.

Lemma lastIndex_nat_last (sub : string) :
  forall s, strings.lastIndex_nat s sub = last (occurrences s sub).
Proof.
  induction s as [|c s IH].
  - cbn. destruct sub; reflexivity.
  - cbn [strings.lastIndex_nat occurrences]. rewrite IH, last_app, fmap_last.
    destruct (last (occurrences s sub)); cbn [fmap option_fmap option_map]; [reflexivity|].
    destruct (String.prefix sub (String c s)); reflexivity.
Qed.

Lemma occurrences_single (sub : string) :
  forall s i,
    head (occurrences s sub) = Some i ->
    last (occurrences s sub) = Some i ->
    occurrences s sub = [i].
Proof.
  induction s as [|c s IH]; intros i Hh Hl.
  - cbn in *. destruct sub; cbn in *; [congruence|discriminate].
  - cbn [occurrences] in *.
    destruct (String.prefix sub (String c s)).
    + cbn in Hh. injection Hh as <-.
      rewrite last_app, fmap_last in Hl.
      destruct (last (occurrences s sub)) eqn:E; cbn in Hl; [discriminate|].
      apply last_None in E. rewrite E. reflexivity.
    + cbn [app] in *.
      assert (Hhead : head (S <$> occurrences s sub) = S <$> head (occurrences s sub))
        by (destruct (occurrences s sub); reflexivity).
      rewrite Hhead in Hh. rewrite fmap_last in Hl.
      destruct (head (occurrences s sub)) as [j|] eqn:Eh; [|discriminate].
      destruct (last (occurrences s sub)) as [k|] eqn:El; [|discriminate].
      cbn in Hh, Hl. injection Hh as <-. injection Hl as ->.
      rewrite (IH j eq_refl eq_refl). reflexivity.
Qed.

Lemma count_newlines (s : string) :
  strings.Count s LF = newlines s.
Proof.
  unfold strings.Count, newlines, LF. f_equal.
  induction s as [|c s IH]; [reflexivity|].
  cbn [strings.count_from list_ascii_of_string List.filter].
  rewrite prefix_cons, prefix_nil.
  destruct (ascii_dec (ascii_of_nat 10) c) as [<-|Hne].
  - rewrite Ascii.eqb_refl. cbn [length]. f_equal. exact IH.
  - destruct (Ascii.eqb_spec (ascii_of_nat 10) c); [contradiction|]. exact IH.
Qed.

(** What [findLine] answers, by the occurrences of the fragment. *)
Lemma findLine_spec (file source code : string) :
  (length (occurrences source code) <> 1%nat ->
   exists e, findLine file source code = inr e)
  /\ (forall i,
        occurrences source code = [i] ->
        findLine file source code
        = inl (newlines (strings.take (i + String.length code) source) + 1)).
Proof.
  unfold findLine, strings.Index, strings.LastIndex.
  rewrite index_nat_head, lastIndex_nat_last.
  split.
  - intros Hlen.
    destruct (head (occurrences source code)) as [i|] eqn:Hh; cbn [strings.to_index].
    + destruct (Z.eqb_spec (Z.of_nat i) (-1)); [lia|].
      destruct (last (occurrences source code)) as [j|] eqn:Hl; cbn [strings.to_index].
      * destruct (Z.eqb_spec (Z.of_nat j) (Z.of_nat i)) as [Hji|]; cbn [negb]; [|eauto].
        apply Nat2Z.inj in Hji. subst j.
        rewrite (occurrences_single _ _ _ Hh Hl) in Hlen. cbn in Hlen. contradiction.
      * destruct (Z.eqb_spec (-1) (Z.of_nat i)); [lia|]. cbn [negb]. eauto.
    + rewrite Z.eqb_refl. eauto.
  - intros i Hi. rewrite Hi. cbn [head last strings.to_index].
    destruct (Z.eqb_spec (Z.of_nat i) (-1)); [lia|].
    rewrite Z.eqb_refl. cbn [negb].
    rewrite count_newlines, <- Nat2Z.inj_add, Nat2Z.id. reflexivity.
Qed.

(** What [findFile] answers, by the candidates the pattern matches. *)
Lemma findFile_spec (re : Regexp) (rx : string) :
  forall (sources : list string) (file : string),
    ~ In "" sources ->
    match List.filter (MatchString re) sources with
    | [] => findFile re rx sources file = inl file
    | [f] =>
        if String.eqb file "" then findFile re rx sources file = inl f
        else exists e, findFile re rx sources file = inr e
    | _ => exists e, findFile re rx sources file = inr e
    end.
Proof.
  induction sources as [|s sources IH]; intros file Hno; [reflexivity|].
  assert (Hs : s <> "") by (intros ->; apply Hno; now left).
  assert (Hno' : ~ In "" sources) by (intros H; apply Hno; now right).
  cbn [List.filter findFile].
  destruct (MatchString re s).
  - destruct (String.eqb_spec file "") as [->|Hf]; cbn [negb].
    + specialize (IH s Hno').
      destruct (List.filter (MatchString re) sources) as [|f [|g l]].
      * exact IH.
      * destruct (String.eqb_spec s ""); [contradiction | exact IH].
      * exact IH.
    + destruct (List.filter (MatchString re) sources) as [|f l]; eauto.
  - exact (IH file Hno').
Qed.

(** C4.  The locator fails, placing no breakpoint, when no candidate path
    or more than one matches the pattern, and when the normalized text of
    the one matching file holds no occurrence of the fragment or more than
    one; when one file matches and the fragment occurs once, the breakpoint
    it asks for is at that file, on the line whose number is the number of
    newlines up to the end of the occurrence, plus one, and the breakpoint
    the debugger grants is entered in the registry with its handler.  The
    candidate paths are paths: none is empty. *)
Theorem locator_unique_file_and_line
    (env : Env) (t : trace breakpoint) (fileRegex codeToMatch : string)
    (h : option Handler) (re : Regexp) :
  regexpCompile env fileRegex = inl re ->
  ~ In "" (Sources env) ->
  cacheCoherent env t ->
  let matching := List.filter (MatchString re) (Sources env) in
  let out := addFileLineBreakpoint env t fileRegex codeToMatch h in
  (length matching <> 1%nat ->
   exists e, snd out = Some e /\ effects (fst out) = effects t)
  /\ forall (file b : string),
      matching = [file] ->
      readFile env file = inl b ->
      let source := strings.ReplaceAll b CRLF LF in
      (length (occurrences source codeToMatch) <> 1%nat ->
       exists e, snd out = Some e /\ effects (fst out) = effects t)
      /\ forall i : nat,
          occurrences source codeToMatch = [i] ->
          let line :=
            newlines (strings.take (i + String.length codeToMatch) source) + 1 in
          effects (fst out) = (effects t ++ [CreateBreakpoint file line ""])%list
          /\ (forall id,
                createBreakpoint env file line "" = inl id ->
                snd out = None
                /\ breakpoints (fst out) !! id
                   = Some {| Breakpoint := {| api.BID := id; api.BFile := file;
                                              api.BLine := line;
                                              api.BFunctionName := "" |};
                             handler := h |})
          /\ (forall e, createBreakpoint env file line "" = inr e -> snd out = Some e).
Proof.
  intros Hre Hno Hcache matching out.
  pose proof (findFile_spec re fileRegex (Sources env) "" Hno) as Hff.
  fold matching in Hff.
  split.
  - intros Hlen. subst out. unfold addFileLineBreakpoint. rewrite Hre.
    destruct matching as [|f [|g l]]; [| cbn in Hlen; lia |].
    + rewrite Hff. cbn. eauto.
    + destruct Hff as [e ->]. eauto.
  - intros file b Hm Hread source.
    rewrite Hm in Hff. cbn in Hff.
    assert (Hfile : file <> "").
    { intros ->. apply Hno.
      assert (Hin : In "" matching) by (rewrite Hm; now left).
      apply filter_In in Hin. tauto. }
    (* The text the locator searches is the normalized text of the file. *)
    assert (Hprep :
      exists t1,
        out = match findLine file source codeToMatch with
              | inr e => (t1, Some e)
              | inl line => register env t1 file line "" h
              end
        /\ effects t1 = effects t /\ breakpoints t1 = breakpoints t).
    { subst out. unfold addFileLineBreakpoint. rewrite Hre, Hff.
      destruct (String.eqb_spec file ""); [contradiction|].
      destruct (String.eqb_spec (default "" (sourceCache t !! file)) "") as [He|Hne].
      - rewrite Hread. exists (setSource t file source). auto.
      - destruct (sourceCache t !! file) as [s|] eqn:Hs; [|contradiction].
        cbn in Hne |- *.
        destruct (Hcache file s Hs Hne) as (b' & Hb' & ->).
        rewrite Hread in Hb'. injection Hb' as <-.
        exists t. auto. }
    destruct Hprep as (t1 & Hout & Heff & Hbps).
    destruct (findLine_spec file source codeToMatch) as [Hbad Hgood].
    split.
    + intros Hlen. destruct (Hbad Hlen) as [e He]. rewrite He in Hout.
      rewrite Hout. cbn. eauto.
    + intros i Hi line. rewrite (Hgood i Hi) in Hout. fold line in Hout.
      rewrite Hout. unfold register.
      destruct (createBreakpoint env file line "") as [id|e]; cbn.
      * rewrite Heff. split; [reflexivity|]. split.
        -- intros id' [= <-]. split; [reflexivity|]. apply lookup_insert_eq.
        -- intros e. discriminate.
      * rewrite Heff. split; [reflexivity|]. split.
        -- intros id. discriminate.
        -- intros e' [= <-]. reflexivity.
Qed.

Lemma cacheCoherent_empty (env : Env) : cacheCoherent env emptyTrace.
Proof. intros file source H. cbn in H. rewrite lookup_empty in H. discriminate. Qed.


Lemma locator_unique_file_and_line_witness :
  effects (fst (addFileLineBreakpoint Sample.env emptyTrace matchInternalEventHandlers
                  (TAB ++ "if event == nil {") (Some OnProcessEvent)))
  = [CreateBreakpoint Sample.eventHandlersGo 2 ""].
Proof.
  destruct (locator_unique_file_and_line Sample.env emptyTrace matchInternalEventHandlers
              (TAB ++ "if event == nil {") (Some OnProcessEvent) eventHandlersRegexp)
    as [_ H].
  - vm_compute. reflexivity.
  - vm_compute. intros [H|[H|[H|[H|[]]]]]; discriminate.
  - apply cacheCoherent_empty.
  - destruct (H Sample.eventHandlersGo eventHandlersText) as [_ H2].
    + vm_compute. reflexivity.
    + vm_compute. reflexivity.
    + destruct (H2 34%nat) as [H3 _].
      * vm_compute. reflexivity.
      * rewrite H3. vm_compute. reflexivity.
Defined.


(** ** What the loop asks of the debugger *)

Lemma hitBreakpoint_effects (t t1 : trace breakpoint) (st : Stop) (th : api.Thread) :
  hitBreakpoint t st th = Ok t1 -> effects t1 = effects t.
Proof.
  unfold hitBreakpoint.
  destruct (api.BreakpointID th) as [id|]; [|intros [= <-]; reflexivity].
  destruct (breakpoints t !! id) as [[b [h|]]|]; [| |discriminate].
  2:{ intros [= <-]. reflexivity. }
  destruct h; cbn [runHandler]; intros H.
  - apply onProcessEvent_Ok in H as (? & ? & _ & _ & ->). reflexivity.
  - apply onReplayCommands_Ok in H as (? & ? & _ & _ & [[_ ->]|[_ ->]]); reflexivity.
  - apply populateCoroutineName_Ok in H as (? & found & _ & _ & ->).
    destruct found; reflexivity.
Qed.

Lemma iteration_effects (env : Env) (t t' : trace breakpoint) (st : Stop)
    (th : api.Thread) (d : Decision) :
  iteration env t st th = (t', d) ->
  (effects t' = effects t \/ effects t' = (effects t ++ [CancelNextCall])%list)
  /\ match d with
     | Issue c _ => c = api.Step \/ c = api.StepOut
     | _ => True
     end.
Proof.
  unfold iteration.
  destruct (hitBreakpoint t st th) as [t1|e|w] eqn:Hh;
    [|intros [= <- <-]; auto|intros [= <- <-]; auto].
  apply hitBreakpoint_effects in Hh.
  assert (H2 : effects (if api.NextInProgress (state st)
                        then logEffect t1 CancelNextCall else t1) = effects t
               \/ effects (if api.NextInProgress (state st)
                           then logEffect t1 CancelNextCall else t1)
                  = (effects t ++ [CancelNextCall])%list).
  { destruct (api.NextInProgress (state st)); cbn; rewrite Hh; auto. }
  destruct (if api.NextInProgress (state st) then CancelNext st else None).
  { intros [= <- <-]. auto. }
  destruct (goStdOrTemporal env th).
  - destruct (strings.HasPrefix (api.FunctionName th) "runtime.goexit");
      intros [= <- <-]; auto.
  - destruct (negb (String.eqb (api.File th) "") && negb false);
      intros [= <- <-]; cbn; auto.
Qed.

(** X2.  Inside its loop [run] asks the debugger only to cancel a step, to
    step and to step out: after the first [Continue] it never continues and
    never halts. *)
Theorem loop_effects (env : Env) :
  forall (rest : list Response) (t t' : trace breakpoint) (st : Stop) (s : Status),
    loop env rest t st = (t', s) ->
    exists new,
      effects t' = (effects t ++ new)%list /\ Forall steppingEffect new.
Proof.
  assert (Hone : forall t t' st th d,
             iteration env t st th = (t', d) ->
             exists new, effects t' = (effects t ++ new)%list
                         /\ Forall steppingEffect new).
  { intros t t' st th d Hit.
    destruct (iteration_effects _ _ _ _ _ _ Hit) as [[He|He] _].
    - exists []. rewrite app_nil_r. auto.
    - exists [CancelNextCall]. split; [assumption|].
      constructor; [now left | constructor]. }
  assert (Hcmd : forall t t' st th c ctx,
             iteration env t st th = (t', Issue c ctx) ->
             exists new, effects (logEffect t' (Command c)) = (effects t ++ new)%list
                         /\ Forall steppingEffect new).
  { intros t t' st th c ctx Hit.
    destruct (Hone _ _ _ _ _ Hit) as (new & He & Hf).
    destruct (iteration_effects _ _ _ _ _ _ Hit) as [_ Hc].
    exists (new ++ [Command c])%list. cbn. rewrite He, <- app_assoc. split; [reflexivity|].
    apply Forall_app. split; [assumption|].
    constructor; [|constructor]. destruct Hc as [-> | ->]; unfold steppingEffect; auto. }
  induction rest as [|r rest IH]; intros t t' st s H; cbn [loop] in H.
  - destruct (api.Exited (state st)).
    { injection H as <- <-. exists []. rewrite app_nil_r. auto. }
    destruct (api.CurrentThread (state st)) as [th|].
    2:{ injection H as <- <-. exists []. rewrite app_nil_r. auto. }
    destruct (iteration env t st th) as [t1 d] eqn:Hit.
    destruct d as [c ctx| |]; injection H as <- <-; eauto.
  - destruct (api.Exited (state st)).
    { injection H as <- <-. exists []. rewrite app_nil_r. auto. }
    destruct (api.CurrentThread (state st)) as [th|].
    2:{ injection H as <- <-. exists []. rewrite app_nil_r. auto. }
    destruct (iteration env t st th) as [t1 d] eqn:Hit.
    destruct d as [c ctx| |]; [|injection H as <- <-; eauto..].
    destruct (Hcmd _ _ _ _ _ _ Hit) as (new1 & He1 & Hf1).
    destruct r as [st1|e].
    + apply IH in H as (new2 & He2 & Hf2).
      exists (new1 ++ new2)%list. rewrite He2, He1, <- app_assoc. split; [reflexivity|].
      apply Forall_app. auto.
    + injection H as <- <-. eauto.
Qed.

Lemma loop_effects_witness :
  exists new,
    effects (fst (loop Sample.env (tl Sample.replay) Sample.session Sample.atEvent))
    = (effects Sample.session ++ new)%list
    /\ Forall steppingEffect new.
Proof.
  apply (loop_effects Sample.env (tl Sample.replay) Sample.session _ Sample.atEvent
           (snd (loop Sample.env (tl Sample.replay) Sample.session Sample.atEvent))).
  apply surjective_pairing.
Defined.


(** ** Setting up and tearing down *)

Lemma register_effects env t file line fn h :
  effects (fst (register env t file line fn h))
  = (effects t ++ [CreateBreakpoint file line fn])%list.
Proof. unfold register. destruct (createBreakpoint env file line fn); reflexivity. Qed.

Lemma addFileLineBreakpoint_effects env t fileRegex codeToMatch h :
  exists new,
    effects (fst (addFileLineBreakpoint env t fileRegex codeToMatch h))
    = (effects t ++ new)%list
    /\ (length new <= 1)%nat /\ Forall isCreateBreakpoint new
    /\ (snd (addFileLineBreakpoint env t fileRegex codeToMatch h) = None ->
        length new = 1%nat).
Proof.
  assert (Hnone : forall (t' : trace breakpoint) (e : error),
             effects t' = effects t ->
             exists new,
               effects (fst (t', Some e)) = (effects t ++ new)%list
               /\ (length new <= 1)%nat /\ Forall isCreateBreakpoint new
               /\ (snd (t', Some e) = None -> length new = 1%nat)).
  { intros t' e He. exists []. cbn. rewrite app_nil_r.
    repeat split; auto. discriminate. }
  assert (Hreg : forall (t' : trace breakpoint) file line,
             effects t' = effects t ->
             exists new,
               effects (fst (register env t' file line "" h)) = (effects t ++ new)%list
               /\ (length new <= 1)%nat /\ Forall isCreateBreakpoint new
               /\ (snd (register env t' file line "" h) = None -> length new = 1%nat)).
  { intros t' file line He. exists [CreateBreakpoint file line ""].
    rewrite register_effects, He. repeat split; auto.
    constructor; [|constructor]. unfold isCreateBreakpoint. eauto. }
  unfold addFileLineBreakpoint.
  destruct (regexpCompile env fileRegex) as [re|]; [|apply Hnone; reflexivity].
  destruct (findFile re fileRegex (Sources env) "") as [file|]; [|apply Hnone; reflexivity].
  destruct (String.eqb file ""); [apply Hnone; reflexivity|].
  destruct (String.eqb (default "" (sourceCache t !! file)) "").
  - destruct (readFile env file) as [b|]; [|apply Hnone; reflexivity].
    destruct (findLine file (strings.ReplaceAll b CRLF LF) codeToMatch) as [line|].
    + apply Hreg. reflexivity.
    + apply Hnone. reflexivity.
  - destruct (findLine file (default "" (sourceCache t !! file)) codeToMatch) as [line|].
    + apply Hreg. reflexivity.
    + apply Hnone. reflexivity.
Qed.

Lemma andThen_effects (t0 : trace breakpoint) (n : nat) r f :
  (exists new, effects (fst r) = (effects t0 ++ new)%list
               /\ (length new <= n)%nat /\ Forall isCreateBreakpoint new
               /\ (snd r = None -> length new = n)) ->
  (forall t, exists new, effects (fst (f t)) = (effects t ++ new)%list
                         /\ (length new <= 1)%nat /\ Forall isCreateBreakpoint new
                         /\ (snd (f t) = None -> length new = 1%nat)) ->
  exists new, effects (fst (andThen r f)) = (effects t0 ++ new)%list
              /\ (length new <= S n)%nat /\ Forall isCreateBreakpoint new
              /\ (snd (andThen r f) = None -> length new = S n).
Proof.
  intros (new & He & Hl & Hf & Hs) Hstep. destruct r as [t [e|]]; cbn in *.
  - exists new. repeat split; auto. discriminate.
  - destruct (Hstep t) as (new2 & He2 & Hl2 & Hf2 & Hs2).
    exists (new ++ new2)%list. rewrite He2, He, <- app_assoc.
    split; [reflexivity|]. rewrite length_app. split; [lia|].
    split; [apply Forall_app; auto|].
    intros Hok. rewrite (Hs eq_refl), (Hs2 Hok). lia.
Qed.

(** X3.  [newTrace] creates the debugger and then asks for breakpoints only:
    for all five when it succeeds; and when it fails after the debugger
    was created, it has halted and detached the debugger before it
    returns.  When the debugger cannot be created there is nothing to
    close. *)
Theorem newTrace_effects (env : Env) (tr : Tracer) (t : trace breakpoint)
    (err : option error) :
  newTrace env tr = (t, err) ->
  match debuggerNew env, err with
  | Some e, _ => effects t = [DebuggerNew] /\ err = Some (wrapf "failed creating debugger: " e)
  | None, None =>
      exists bps, effects t = DebuggerNew :: bps
                  /\ length bps = 5%nat /\ Forall isCreateBreakpoint bps
  | None, Some _ =>
      exists bps, effects t = (DebuggerNew :: bps ++ [Command api.Halt; Detach])%list
                  /\ (length bps <= 5)%nat /\ Forall isCreateBreakpoint bps
  end.
Proof.
  unfold newTrace. destruct (debuggerNew env) as [e|].
  { intros [= <- <-]. auto. }
  set (t0 := logEffect emptyTrace DebuggerNew).
  match goal with
  | |- match ?r with _ => _ end = _ -> _ =>
      assert (Hr : exists new, effects (fst r) = (effects t0 ++ new)%list
                               /\ (length new <= 5)%nat /\ Forall isCreateBreakpoint new
                               /\ (snd r = None -> length new = 5%nat));
      [|destruct r as [t' [e|]]]
  end.
  { repeat (apply andThen_effects; [|intros; apply addFileLineBreakpoint_effects]).
    unfold addFuncBreakpoint.
    exists [CreateBreakpoint "" 0 (fnPkg tr ++ "." ++ fn tr)].
    rewrite register_effects. repeat split; auto.
    constructor; [|constructor]. unfold isCreateBreakpoint. eauto. }
  - intros [= <- <-]. destruct Hr as (new & He & Hl & Hf & _). cbn in He.
    exists new. cbn. rewrite He. cbn. rewrite <- app_assoc. auto.
  - intros [= <- <-]. destruct Hr as (new & He & Hl & Hf & Hs). cbn in He.
    exists new. rewrite He. cbn. auto.
Qed.

Lemma newTrace_effects_witness :
  exists bps, effects Sample.session = DebuggerNew :: bps
              /\ length bps = 5%nat /\ Forall isCreateBreakpoint bps.
Proof.
  apply (newTrace_effects Sample.env Sample.tracer Sample.session None).
  vm_compute. reflexivity.
Defined.


Lemma Trace_built (env : Env) (tr : Tracer) :
  built env tr ->
  Trace env tr
  = match newTrace env tr with
    | (t, Some e) =>
        {| returnedResult := None; status := Returned (Some e);
           done := ([MkdirTemp; WriteMainGo; GoBuild] ++ effects t ++ removeTemp tr)%list |}
    | (t, None) =>
        match run env t with
        | (t', Returned err) =>
            {| returnedResult := Some (result t'); status := Returned err;
               done := ([MkdirTemp; WriteMainGo; GoBuild] ++ effects (close t')
                          ++ removeTemp tr)%list |}
        | (t', Panicked w) =>
            {| returnedResult := None; status := Panicked w;
               done := ([MkdirTemp; WriteMainGo; GoBuild] ++ effects (close t')
                          ++ removeTemp tr)%list |}
        | (t', Blocked) =>
            {| returnedResult := None; status := Blocked;
               done := ([MkdirTemp; WriteMainGo; GoBuild] ++ effects t')%list |}
        end
    end.
Proof.
  intros (H1 & H2 & H3 & H4 & H5). unfold Trace. rewrite H1, H2, H3, H4, H5. reflexivity.
Qed.

(** X4.  A clean exit: when the process exits with status zero, [run]
    returns no error and [Trace] returns the accumulated result without an
    error, after halting and detaching the debugger and, unless the
    temporary directory is retained, removing it. *)
Theorem clean_exit_returns_result
    (env : Env) (tr : Tracer) (t0 : trace breakpoint) (st0 : Stop)
    (rest : list Response) (n : nat) (passed : list Stop) (rest' : list Response)
    (t : trace breakpoint) (st : Stop) :
  built env tr ->
  newTrace env tr = (t0, None) ->
  script env = inl st0 :: rest ->
  arrive env n rest (logEffect t0 (Command api.Continue)) st0
  = Some (passed, rest', t, st) ->
  api.Exited (state st) = true ->
  api.ExitStatus (state st) = 0 ->
  run env t0 = (t, Returned None)
  /\ returnedResult (Trace env tr) = Some (result t)
  /\ status (Trace env tr) = Returned None
  /\ done (Trace env tr)
     = ([MkdirTemp; WriteMainGo; GoBuild] ++ effects t ++ [Command api.Halt; Detach]
          ++ removeTemp tr)%list.
Proof.
  intros Hb Hnew Hscript Harr Hex Hst.
  assert (Hrun : run env t0 = (t, Returned None)).
  { unfold run. rewrite Hscript.
    rewrite (arrive_loop _ _ _ _ _ _ _ _ _ Harr), (loop_exited _ _ _ _ Hex).
    unfold exitError. rewrite Hex, Hst. reflexivity. }
  split; [exact Hrun|].
  rewrite (Trace_built _ _ Hb), Hnew, Hrun. cbn.
  repeat split. rewrite <- !app_assoc. reflexivity.
Qed.

Lemma clean_exit_returns_result_witness :
  status (Trace cleanEnv Sample.tracer) = Returned None
  /\ exists r, returnedResult (Trace cleanEnv Sample.tracer) = Some r.
Proof.
  destruct (clean_exit_returns_result cleanEnv Sample.tracer
              (fst (newTrace cleanEnv Sample.tracer)) Sample.atEvent
              [inl Sample.atEntry; inl (Sample.exitedWith 0)] 2
              [Sample.atEvent; Sample.atEntry] []
              (fst (run cleanEnv (fst (newTrace cleanEnv Sample.tracer))))
              (Sample.exitedWith 0))
    as (_ & Hres & Hst & _).
  - repeat split; vm_compute; reflexivity.
  - vm_compute. reflexivity.
  - reflexivity.
  - vm_compute. reflexivity.
  - reflexivity.
  - reflexivity.
  - split; [exact Hst|]. eexists. exact Hres.
Defined.

(** X5.  A stop at a breakpoint that is not in the registry, or a stop
    without a current thread, makes [run] panic on a nil pointer; [Trace]
    then returns nothing, but its deferred calls have halted and detached
    the debugger and removed the temporary directory. *)
Theorem stray_stop_panics
    (env : Env) (tr : Tracer) (t0 : trace breakpoint) (st : Stop)
    (rest : list Response) :
  built env tr ->
  newTrace env tr = (t0, None) ->
  script env = inl st :: rest ->
  api.Exited (state st) = false ->
  (api.CurrentThread (state st) = None
   \/ exists th id,
       api.CurrentThread (state st) = Some th
       /\ api.BreakpointID th = Some id
       /\ breakpoints t0 !! id = None) ->
  run env t0 = (logEffect t0 (Command api.Continue), Panicked "nil pointer dereference")
  /\ returnedResult (Trace env tr) = None
  /\ status (Trace env tr) = Panicked "nil pointer dereference"
  /\ done (Trace env tr)
     = ([MkdirTemp; WriteMainGo; GoBuild] ++ effects t0
          ++ [Command api.Continue; Command api.Halt; Detach] ++ removeTemp tr)%list.
Proof.
  intros Hb Hnew Hscript Hex Hcase.
  assert (Hrun : run env t0
                 = (logEffect t0 (Command api.Continue),
                    Panicked "nil pointer dereference")).
  { unfold run. rewrite Hscript.
    destruct Hcase as [Hth | (th & id & Hth & Hid & Hbp)].
    - destruct rest; cbn [loop]; rewrite Hex, Hth; reflexivity.
    - assert (Hit : iteration env (logEffect t0 (Command api.Continue)) st th
                    = (logEffect t0 (Command api.Continue),
                       Crash "nil pointer dereference")).
      { unfold iteration, hitBreakpoint. rewrite Hid. cbn [breakpoints logEffect].
        rewrite Hbp. reflexivity. }
      destruct rest; cbn [loop]; rewrite Hex, Hth, Hit; reflexivity. }
  split; [exact Hrun|].
  rewrite (Trace_built _ _ Hb), Hnew, Hrun. cbn.
  repeat split. rewrite <- !app_assoc. reflexivity.
Qed.

Lemma stray_stop_panics_witness :
  status (Trace (Sample.envWith [inl strayStop]) Sample.tracer)
  = Panicked "nil pointer dereference".
Proof.
  destruct (stray_stop_panics (Sample.envWith [inl strayStop]) Sample.tracer
              (fst (newTrace (Sample.envWith [inl strayStop]) Sample.tracer))
              strayStop [])
    as (_ & _ & Hst & _).
  - repeat split; vm_compute; reflexivity.
  - vm_compute. reflexivity.
  - reflexivity.
  - reflexivity.
  - right. exists strayThread, 99.
    split; [reflexivity|]. split; [reflexivity|]. vm_compute. reflexivity.
  - exact Hst.
Defined.


(** ** More on the handlers *)

(** X6.  The naming handler touches nothing but the name of the current
    unit: the events, the registry and the names of all other units stay
    as they are, and the name it records is that of the first [crt]
    argument whose struct has a [name]. *)
Theorem populateCoroutineName_frame
    (t t' : trace breakpoint) (st : Stop) (th : api.Thread) :
  populateCoroutineName t st th = Ok t' ->
  result t' = result t
  /\ breakpoints t' = breakpoints t
  /\ effects t' = effects t
  /\ (forall u, u <> api.GoroutineID th ->
                coroutineNames t' !! u = coroutineNames t !! u)
  /\ exists vars found,
      FunctionArguments st = inl vars
      /\ crtName vars = Ok found
      /\ match found with
         | Some n => coroutineNames t' !! api.GoroutineID th = Some n
         | None => coroutineNames t' = coroutineNames t
         end.
Proof.
  intros H. apply populateCoroutineName_Ok in H as (vars & found & Hv & Hf & ->).
  destruct found as [n|]; cbn.
  - repeat split; auto.
    + intros u Hu. apply lookup_insert_ne. congruence.
    + exists vars, (Some n). repeat split; auto. apply lookup_insert_eq.
  - repeat split; auto. exists vars, None. auto.
Qed.

Lemma populateCoroutineName_frame_witness :
  coroutineNames (setCoroutineName Sample.session 8 "worker") !! 7
  = coroutineNames Sample.session !! 7.
Proof.
  destruct (populateCoroutineName_frame Sample.session
              (setCoroutineName Sample.session 8 "worker")
              (Sample.atSpawn "worker")
              (Sample.thread Sample.workflowGo 6 Sample.spawned 8 (Some 16)))
    as (_ & _ & _ & H & _).
  - vm_compute. reflexivity.
  - apply H. discriminate.
Defined.

Lemma foldM_commands (children : list api.Var) :
  forall (cs acc : list Z),
    Forall2 (fun child c => commandOf child = Ok c) children cs ->
    foldM (fun (cs : list Z) command =>
             let* c := commandOf command in Ok (cs ++ [c])%list)
          children acc
    = Ok (acc ++ cs)%list.
Proof.
  induction children as [|child children IH]; intros cs acc H.
  - inversion H; subst. cbn. rewrite app_nil_r. reflexivity.
  - inversion H as [|? c ? cs' Hc Hrest]; subst. cbn [foldM]. rewrite Hc. cbn [bind].
    rewrite (IH cs' _ Hrest), <- app_assoc. reflexivity.
Qed.

Lemma foldM_app {A X : Type} (f : A -> X -> res A) (l1 l2 : list X) (a : A) :
  foldM f (l1 ++ l2) a = let* a' := foldM f l1 a in foldM f l2 a'.
Proof.
  revert a. induction l1 as [|x l1 IH]; intros a; [reflexivity|].
  cbn. destruct (f a x); cbn; auto.
Qed.

(** X7.  The command handler keeps the order of the commands: when the
    locals hold one [eventCommands] and the type of each of its elements
    parses, the batch appended lists those types one for one, in the order
    of the elements; the other locals are ignored. *)
Theorem commands_in_order
    (t : trace breakpoint) (st : Stop) (before after children : list api.Var)
    (value : string) (cs : list Z) :
  LocalVariables st
  = inl (before ++ api.mkVar "eventCommands" value children :: after)%list ->
  (forall v, In v (before ++ after) -> api.Name v <> "eventCommands") ->
  Forall2 (fun child c => commandOf child = Ok c) children cs ->
  cs <> [] ->
  extractCommands (before ++ api.mkVar "eventCommands" value children :: after) = Ok cs
  /\ onReplayCommands t st = Ok (appendEvent t (clientEvent {| Commands := cs |})).
Proof.
  intros Hv Hother Hcs Hne.
  assert (Hskip : forall (l : list api.Var) (acc : list Z),
             (forall v, In v l -> api.Name v <> "eventCommands") ->
             foldM commandsArg l acc = Ok acc).
  { intros l acc Hl. apply foldM_fixed. intros v Hin. unfold commandsArg.
    destruct (String.eqb_spec (api.Name v) "eventCommands") as [Hn|_]; [|reflexivity].
    destruct (Hl v Hin Hn). }
  assert (Hex : extractCommands (before ++ api.mkVar "eventCommands" value children :: after)
                = Ok cs).
  { unfold extractCommands. rewrite foldM_app, Hskip.
    2:{ intros v Hin. apply Hother. apply in_or_app. now left. }
    cbn [bind foldM]. unfold commandsArg at 1. cbn [api.Name api.Children].
    rewrite String.eqb_refl, (foldM_commands _ cs [] Hcs). cbn [bind app].
    apply Hskip. intros v Hin. apply Hother. apply in_or_app. now right. }
  split; [exact Hex|].
  unfold onReplayCommands. rewrite Hv. cbn [loadVars bind]. rewrite Hex. cbn [bind].
  destruct cs as [|c cs]; [contradiction|].
  destruct (0 <? Z.of_nat (length (c :: cs)))%Z eqn:E; [reflexivity|].
  apply Z.ltb_ge in E. cbn [length] in E. lia.
Qed.

Lemma commands_in_order_witness :
  extractCommands twoCommands = Ok [1; 3].
Proof.
  apply (commands_in_order Sample.session
           (Sample.stopAt eventThread false [] twoCommands)
           [api.mkVar "task" "" []] [api.mkVar "skipReplayCheck" "false" []]
           [Sample.pointer "" [api.mkVar "CommandType" "ScheduleActivityTask (1)" []];
            Sample.pointer "" [api.mkVar "CommandType" "StartTimer (3)" []]]
           "" [1; 3]).
  - reflexivity.
  - intros v [<- | [<- | []]]; discriminate.
  - repeat constructor.
  - discriminate.
Defined.

(** ** The cache of sources *)

(** X8.  The locator keeps the cache of sources coherent with the files:
    whatever it enters is the text of the file with its line endings
    normalized; so the cache is coherent in every session [newTrace]
    returns. *)
Theorem cache_stays_coherent :
  (forall (env : Env) (t : trace breakpoint) (fileRegex codeToMatch : string)
          (h : option Handler),
      cacheCoherent env t ->
      cacheCoherent env (fst (addFileLineBreakpoint env t fileRegex codeToMatch h)))
  /\ (forall (env : Env) (tr : Tracer), cacheCoherent env (fst (newTrace env tr))).
Proof.
  assert (Hreg : forall env (t : trace breakpoint) file line fn h,
             cacheCoherent env t -> cacheCoherent env (fst (register env t file line fn h))).
  { intros env t file line fn h Hc. unfold register.
    destruct (createBreakpoint env file line fn); exact Hc. }
  assert (Hadd : forall env (t : trace breakpoint) fileRegex codeToMatch h,
             cacheCoherent env t ->
             cacheCoherent env (fst (addFileLineBreakpoint env t fileRegex codeToMatch h))).
  { intros env t fileRegex codeToMatch h Hc. unfold addFileLineBreakpoint.
    destruct (regexpCompile env fileRegex) as [re|]; [|exact Hc].
    destruct (findFile re fileRegex (Sources env) "") as [file|]; [|exact Hc].
    destruct (String.eqb file ""); [exact Hc|].
    destruct (String.eqb (default "" (sourceCache t !! file)) "").
    - destruct (readFile env file) as [b|] eqn:Hb; [|exact Hc].
      assert (Hc' : cacheCoherent env (setSource t file (strings.ReplaceAll b CRLF LF))).
      { intros f s Hs Hne. cbn in Hs.
        destruct (decide (file = f)) as [<-|Hf].
        - rewrite lookup_insert_eq in Hs. injection Hs as <-. eauto.
        - rewrite lookup_insert_ne in Hs by assumption. exact (Hc f s Hs Hne). }
      destruct (findLine file (strings.ReplaceAll b CRLF LF) codeToMatch);
        [apply Hreg|]; exact Hc'.
    - destruct (findLine file (default "" (sourceCache t !! file)) codeToMatch);
        [apply Hreg|]; exact Hc. }
  split; [exact Hadd|].
  intros env tr. unfold newTrace.
  destruct (debuggerNew env); [apply cacheCoherent_empty|].
  assert (Hthen : forall r f,
             cacheCoherent env (fst r) ->
             (forall t, cacheCoherent env t -> cacheCoherent env (fst (f t))) ->
             cacheCoherent env (fst (andThen r f))).
  { intros [t [e|]] f Hr Hf; cbn in *; auto. }
  match goal with
  | |- cacheCoherent env (fst (match ?r with _ => _ end)) =>
      assert (Hr : cacheCoherent env (fst r)); [|destruct r as [t' [e|]]; exact Hr]
  end.
  repeat (apply Hthen; [|intros; apply Hadd; assumption]).
  apply Hreg. apply cacheCoherent_empty.
Qed.

Lemma cache_stays_coherent_witness : cacheCoherent Sample.env Sample.session.
Proof.
  destruct cache_stays_coherent as [_ H]. apply (H Sample.env Sample.tracer).
Defined.


Lemma implied_exclusions_step_out_witness :
  exists t',
    iteration Sample.env Sample.session Sample.atEvent eventThread
    = (t', Issue (if strings.HasPrefix (api.FunctionName eventThread) "runtime.goexit"
                  then api.Step else api.StepOut) "failed stepping out: ")
    /\ result t' = result (appendEvent Sample.session (serverEvent {| ID := 1; Type_ := 1 |})).
Proof.
  apply (implied_exclusions_step_out Sample.env Sample.session
           (appendEvent Sample.session (serverEvent {| ID := 1; Type_ := 1 |}))
           Sample.atEvent eventThread).
  - vm_compute. reflexivity.
  - discriminate.
  - vm_compute. reflexivity.
Defined.

(** ** More on the configuration *)

Lemma lastIndex_None_noDot (f : string) :
  strings.lastIndex_nat f "." = None -> noDot f.
Proof.
  unfold noDot. induction f as [|c f IH]; intros H Hin; [destruct Hin|].
  change (strings.lastIndex_nat (String c f) ".")
    with (match strings.lastIndex_nat f "." with
          | Some i => Some (S i)
          | None => if String.prefix "." (String c f) then Some O else None
          end) in H.
  destruct (strings.lastIndex_nat f ".") as [i|]; [discriminate|].
  rewrite prefix_cons, prefix_nil in H.
  destruct (ascii_dec "." c) as [Hc|Hc]; [discriminate|].
  destruct Hin as [Hin|Hin]; [congruence|]. exact (IH eq_refl Hin).
Qed.

Lemma lastIndex_dot_split (f : string) :
  forall i,
    strings.lastIndex_nat f "." = Some i ->
    f = strings.take i f ++ "." ++ strings.drop (i + 1) f
    /\ noDot (strings.drop (i + 1) f).
Proof.
  induction f as [|c f IH]; intros i H; [discriminate|].
  change (strings.lastIndex_nat (String c f) ".")
    with (match strings.lastIndex_nat f "." with
          | Some i => Some (S i)
          | None => if String.prefix "." (String c f) then Some O else None
          end) in H.
  destruct (strings.lastIndex_nat f ".") as [j|] eqn:Hj.
  - injection H as <-. destruct (IH j eq_refl) as [Hs Hn].
    cbn [Nat.add strings.take strings.drop]. split; [|exact Hn].
    change (String c f
            = String c (strings.take j f ++ "." ++ strings.drop (j + 1) f)).
    f_equal. exact Hs.
  - rewrite prefix_cons, prefix_nil in H.
    destruct (ascii_dec "." c) as [<-|Hc]; [|discriminate].
    injection H as <-. cbn. split; [reflexivity|].
    apply lastIndex_None_noDot. exact Hj.
Qed.

(** X9.  What [New] accepts: exactly one of [Execution] and [HistoryFile]
    is set, there is one workflow function, and the package and the name
    the tracer holds are that function split at its last dot: joined by a
    dot they give it back, and the name holds no dot.  The configuration is
    kept, with the default logger when none was given. *)
Theorem New_accepts (cfg : Config) (tr : Tracer) :
  New cfg = inl tr ->
  (Execution_ cfg = None <-> HistoryFile cfg <> "")
  /\ WorkflowFuncs cfg = [fnPkg tr ++ "." ++ fn tr]
  /\ noDot (fn tr)
  /\ config tr = withLog cfg true.
Proof.
  unfold New.
  destruct (Execution_ cfg) as [x|] eqn:Hx; cbn [isNil andb negb].
  - destruct (String.eqb_spec (HistoryFile cfg) "") as [Hh|Hh]; cbn [negb]; [|discriminate].
    destruct (WorkflowFuncs cfg) as [|f [|g l]] eqn:Hf; try discriminate.
    destruct (strings.lastIndex_nat f ".") as [i|] eqn:Hi; [|discriminate].
    intros [= <-]. cbn. destruct (lastIndex_dot_split f i Hi) as [Hs Hn].
    split; [split; [discriminate | congruence]|].
    split; [congruence|]. split; [exact Hn|].
    destruct cfg as [? [] ? ? ? ? ? ? ? ?]; reflexivity.
  - destruct (String.eqb_spec (HistoryFile cfg) "") as [Hh|Hh]; [discriminate|].
    destruct (WorkflowFuncs cfg) as [|f [|g l]] eqn:Hf; try discriminate.
    destruct (strings.lastIndex_nat f ".") as [i|] eqn:Hi; [|discriminate].
    intros [= <-]. cbn. destruct (lastIndex_dot_split f i Hi) as [Hs Hn].
    split; [split; auto|].
    split; [congruence|]. split; [exact Hn|].
    destruct cfg as [? [] ? ? ? ? ? ? ? ?]; reflexivity.
Qed.

Lemma New_accepts_witness :
  WorkflowFuncs Sample.cfg = [fnPkg Sample.tracer ++ "." ++ fn Sample.tracer]
  /\ noDot (fn Sample.tracer).
Proof.
  destruct (New_accepts Sample.cfg Sample.tracer) as (_ & H1 & H2 & _).
  - vm_compute. reflexivity.
  - split; assumption.
Defined.

Lemma stringsToRegexps_length compile strs res :
  cmd.stringsToRegexps compile strs = inl res -> length res = length strs.
Proof.
  revert res. induction strs as [|s strs IH]; intros res; cbn.
  - intros [= <-]. reflexivity.
  - destruct (compile s); [|discriminate].
    destruct (cmd.stringsToRegexps compile strs); [|discriminate].
    intros [= <-]. cbn. f_equal. apply IH. reflexivity.
Qed.

(** X10.  The configuration the command line builds always passes the
    identity check of [New]: exactly one of the execution and the history
    file is set in it, so [New] can only reject it for a workflow function
    without a dot, and accepts it when the function has one; each pattern
    given is compiled, in order. *)
Theorem tracerConfig_passes_New
    (compile : string -> Regexp + error) (config : cmd.TraceConfig) (c : Config) :
  cmd.tracerConfig compile config = inl c ->
  (Execution_ c = None <-> HistoryFile c <> "")
  /\ WorkflowFuncs c = [cmd.Func config]
  /\ length (ExcludeFuncs c) = length (cmd.ExcludeFuncs config)
  /\ length (ExcludeFiles c) = length (cmd.ExcludeFiles config)
  /\ (forall e, New c = inr e -> e = "workflow function missing dot")
  /\ (~ noDot (cmd.Func config) -> exists tr, New c = inl tr).
Proof.
  intros H.
  assert (Hshape : (Execution_ c = None <-> HistoryFile c <> "")
                   /\ WorkflowFuncs c = [cmd.Func config]
                   /\ length (ExcludeFuncs c) = length (cmd.ExcludeFuncs config)
                   /\ length (ExcludeFiles c) = length (cmd.ExcludeFiles config)).
  { unfold cmd.tracerConfig in H.
    destruct (String.eqb_spec (cmd.WorkflowID config) "") as [Hw|Hw]; cbn [negb] in H.
    - destruct (String.eqb_spec (cmd.RunID config) ""); cbn [negb] in H; [|discriminate].
      destruct (String.eqb_spec (cmd.HistoryFile config) "") as [Hh|Hh]; [discriminate|].
      destruct (cmd.stringsToRegexps compile (cmd.ExcludeFuncs config)) eqn:H1;
        [|discriminate].
      destruct (cmd.stringsToRegexps compile (cmd.ExcludeFiles config)) eqn:H2;
        [|discriminate].
      injection H as <-. cbn.
      rewrite (stringsToRegexps_length _ _ _ H1), (stringsToRegexps_length _ _ _ H2).
      repeat split; auto.
    - destruct (String.eqb_spec (cmd.HistoryFile config) "") as [Hh|Hh]; cbn [negb] in H;
        [|discriminate].
      destruct (cmd.stringsToRegexps compile (cmd.ExcludeFuncs config)) eqn:H1;
        [|discriminate].
      destruct (cmd.stringsToRegexps compile (cmd.ExcludeFiles config)) eqn:H2;
        [|discriminate].
      injection H as <-. cbn.
      rewrite (stringsToRegexps_length _ _ _ H1), (stringsToRegexps_length _ _ _ H2).
      repeat split; auto; try discriminate. intros Hx. exfalso. apply Hx. reflexivity. }
  destruct Hshape as (Hone & Hf & Hl1 & Hl2).
  repeat split; try tauto; try assumption.
  - intros e He. unfold New in He. rewrite Hf in He.
    destruct (Execution_ c) as [x|]; cbn [isNil andb negb] in He.
    + destruct (String.eqb_spec (HistoryFile c) ""); cbn [negb] in He.
      * destruct (strings.lastIndex_nat (cmd.Func config) "."); congruence.
      * exfalso. assert (Hn : @None Execution = None) by reflexivity.
        destruct Hone as [_ Hone]. specialize (Hone n). discriminate.
    + destruct (String.eqb_spec (HistoryFile c) "") as [Hh|Hh].
      * exfalso. destruct Hone as [Hone _]. exact (Hone eq_refl Hh).
      * destruct (strings.lastIndex_nat (cmd.Func config) "."); congruence.
  - intros Hdot. unfold New. rewrite Hf.
    destruct (strings.lastIndex_nat (cmd.Func config) ".") as [i|] eqn:Hi.
    2:{ exfalso. apply Hdot. apply lastIndex_None_noDot. exact Hi. }
    destruct (Execution_ c) as [x|]; cbn [isNil andb negb].
    + destruct (String.eqb_spec (HistoryFile c) ""); cbn [negb]; [eauto|].
      exfalso. destruct Hone as [_ Hone]. specialize (Hone n). discriminate.
    + destruct (String.eqb_spec (HistoryFile c) "") as [Hh|Hh]; [|eauto].
      exfalso. destruct Hone as [Hone _]. exact (Hone eq_refl Hh).
Qed.

Lemma tracerConfig_passes_New_witness :
  exists tr, New (configLiteral "localhost:7233" "default" "example.com/app.MyWorkflow"
                    "." false (Some (executionOf "wf-1" "")) "" [] []) = inl tr.
Proof.
  destruct (tracerConfig_passes_New Sample.compile flags
              (configLiteral "localhost:7233" "default" "example.com/app.MyWorkflow"
                 "." false (Some (executionOf "wf-1" "")) "" [] []))
    as (_ & _ & _ & _ & _ & H).
  - reflexivity.
  - apply H. intros Hno. apply Hno. vm_compute. tauto.
Defined.


(** ** The integer in trailing parentheses *)

Lemma index_nat_prefix (sub : string) :
  forall s i,
    strings.index_nat s sub = Some i ->
    String.prefix sub (strings.drop i s) = true /\ (i <= String.length s)%nat.
Proof.
  induction s as [|c s IH]; intros i H.
  - destruct sub; cbn in H; [|discriminate].
    injection H as <-. cbn. split; [reflexivity|lia].
  - cbn [strings.index_nat] in H.
    destruct (String.prefix sub (String c s)) eqn:Hp.
    + injection H as <-. cbn. split; [assumption|lia].
    + destruct (strings.index_nat s sub) as [j|] eqn:Hj; [|discriminate].
      injection H as <-. destruct (IH j eq_refl) as [H1 H2].
      cbn. split; [assumption|lia].
Qed.

Lemma drop_length (s : string) :
  forall n, String.length (strings.drop n s) = (String.length s - n)%nat.
Proof.
  induction s as [|c s IH]; intros [|n]; cbn; auto.
Qed.

Lemma parse_total (fn s : string) :
  (exists z, strconv.parse fn s = Ok z /\ - 2 ^ 63 <= z < 2 ^ 63)
  \/ exists e, strconv.parse fn s = Err e.
Proof.
  assert (Hd : forall s acc z, 0 <= acc -> strconv.digits acc s = Some z -> 0 <= z).
  { clear. induction s as [|c s IH]; intros acc z Ha H; cbn in H.
    - congruence.
    - unfold strconv.digit_of in H.
      destruct ((48 <=? Z.of_nat (nat_of_ascii c))%Z
                && (Z.of_nat (nat_of_ascii c) <=? 57)%Z)%bool eqn:E; [|discriminate].
      apply andb_true_iff in E as [E1 E2]. apply Z.leb_le in E1, E2.
      eapply IH; [|exact H]. lia. }
  unfold strconv.parse.
  destruct (strconv.sign_magnitude s) as [[neg un]|] eqn:Hs; [|right; eauto].
  assert (Hun : 0 <= un).
  { unfold strconv.sign_magnitude in Hs. destruct s as [|c rest]; [discriminate|].
    destruct (Ascii.eqb c "+"); [|destruct (Ascii.eqb c "-")].
    - destruct rest; [discriminate|].
      destruct (strconv.digits 0 (String a rest)) eqn:E; [|discriminate].
      injection Hs as _ <-. exact (Hd _ _ _ (Z.le_refl 0) E).
    - destruct rest; [discriminate|].
      destruct (strconv.digits 0 (String a rest)) eqn:E; [|discriminate].
      injection Hs as _ <-. exact (Hd _ _ _ (Z.le_refl 0) E).
    - destruct (strconv.digits 0 (String c rest)) eqn:E; [|discriminate].
      injection Hs as _ <-. exact (Hd _ _ _ (Z.le_refl 0) E). }
  destruct neg.
  - destruct (Z.leb_spec un (2 ^ 63)); [left|right; eauto].
    eexists. split; [reflexivity|]. lia.
  - destruct (Z.ltb_spec un (2 ^ 63)); [left|right; eauto].
    eexists. split; [reflexivity|]. lia.
Qed.

(** X11.  [intInTrailingParens] never panics: the slice it takes is always
    within the string.  It returns the fixed error when the string has no
    opening parenthesis or does not end in a closing one, and an integer it
    returns is within the range of int64. *)
Theorem intInTrailingParens_total (str : string) :
  ((exists i, intInTrailingParens str = Ok i /\ - 2 ^ 63 <= i < 2 ^ 63)
   \/ exists e, intInTrailingParens str = Err e)
  /\ (strings.index_nat str "(" = None \/ strings.HasSuffix str ")" = false ->
      intInTrailingParens str = Err "expected int in parens at the end").
Proof.
  unfold intInTrailingParens. split.
  - destruct (strings.index_nat str "(") as [b|] eqn:Hb; [|right; eauto].
    destruct (strings.HasSuffix str ")") eqn:Hs; cbn [negb]; [|right; eauto].
    assert (Hslice : exists intStr,
               slice str (b + 1) (String.length str - 1) = Ok intStr).
    { unfold slice.
      destruct (index_nat_prefix _ _ _ Hb) as [Hp Hle].
      unfold strings.HasSuffix in Hs. apply andb_true_iff in Hs as [Hl He].
      apply Nat.leb_le in Hl. cbn [String.length] in Hl, He.
      apply String.eqb_eq in He.
      assert (Hb' : (b + 1 <= String.length str - 1)%nat).
      { destruct (Nat.eq_dec b (String.length str - 1)%nat) as [->|Hne].
        - rewrite He in Hp. discriminate.
        - assert (Hlt : (b < String.length str)%nat).
          { destruct (Nat.eq_dec b (String.length str)) as [->|]; [|lia].
            pose proof (drop_length str (String.length str)) as Hd.
            rewrite Nat.sub_diag in Hd.
            destruct (strings.drop (String.length str) str); [discriminate|].
            discriminate. }
          lia. }
      destruct (Nat.leb_spec (b + 1) (String.length str - 1)); [|lia].
      destruct (Nat.leb_spec (String.length str - 1) (String.length str)); [|lia].
      cbn. eauto. }
    destruct Hslice as [intStr ->]. cbn [bind]. unfold strconv.Atoi.
    destruct (parse_total "Atoi" intStr) as [(z & -> & Hz) | (e & ->)]; eauto.
  - intros [Hn | Hs].
    + rewrite Hn. reflexivity.
    + destruct (strings.index_nat str "("); [|reflexivity]. rewrite Hs. reflexivity.
Qed.

Lemma intInTrailingParens_total_witness :
  intInTrailingParens "WorkflowTaskStarted" = Err "expected int in parens at the end".
Proof.
  destruct (intInTrailingParens_total "WorkflowTaskStarted") as [_ H].
  apply H. left. vm_compute. reflexivity.
Defined.
